(** * Status metric controller

    A shallow embedding of
    [source/solution/application/metrics/status_controller.py]
    (class [StatusMetricController]) together with the properties its
    design document states about it.

    Python values are modelled as follows:
    - [int] is [Z] (Python integers are unbounded);
    - [str] is [string], each character being one code point below 256;
    - the stream records, which reach the Lambda as parsed JSON, are
      values of type [json]; a [dict] keeps its insertion order as an
      association list;
    - [Optional[T]] is [option T];
    - an exception aborts the computation: fallible code returns
      [result]. *)

From Stdlib Require Import ZArith List String Ascii Lia Permutation Sorted.
From Stdlib Require Import DecimalString DecimalPos DecimalZ.
From stdpp Require Import gmap strings list fin_maps.

Import ListNotations.
Local Open Scope string_scope.
Local Open Scope list_scope.
Local Open Scope Z_scope.

(** ** hashlib.sha256

    [hashlib] is the Python standard library's; the digest is written
    here after FIPS 180-4, on 32-bit words held in [Z] with the
    wrap-around written out. *)
Module Sha256.

Definition wrap (x : Z) : Z := x mod 2 ^ 32.

Definition add32 (x y : Z) : Z := wrap (x + y).

Definition rotr (n x : Z) : Z :=
  Z.lor (Z.shiftr x n) (wrap (Z.shiftl x (32 - n))).

Definition shr (n x : Z) : Z := Z.shiftr x n.

Definition not32 (x : Z) : Z := Z.lxor x 0xffffffff.

Definition Ch (x y z : Z) : Z := Z.lxor (Z.land x y) (Z.land (not32 x) z).

Definition Maj (x y z : Z) : Z :=
  Z.lxor (Z.lxor (Z.land x y) (Z.land x z)) (Z.land y z).

Definition Sigma0 (x : Z) : Z := Z.lxor (Z.lxor (rotr 2 x) (rotr 13 x)) (rotr 22 x).
Definition Sigma1 (x : Z) : Z := Z.lxor (Z.lxor (rotr 6 x) (rotr 11 x)) (rotr 25 x).
Definition sigma0 (x : Z) : Z := Z.lxor (Z.lxor (rotr 7 x) (rotr 18 x)) (shr 3 x).
Definition sigma1 (x : Z) : Z := Z.lxor (Z.lxor (rotr 17 x) (rotr 19 x)) (shr 10 x).

(** The constants are fractional parts of roots of the first primes,
    on 32 bits: square roots of the first eight for the initial hash
    value, cube roots of the first sixty-four for the round
    constants. *)
Definition is_prime (n : Z) : bool :=
  forallb (fun d => negb (n mod Z.of_nat d =? 0)) (seq 2 (Z.to_nat n - 2)).

Definition primes : list Z :=
  Eval vm_compute in filter is_prime (List.map Z.of_nat (seq 2 310)).

(** The largest [r] below [2 ^ bit] above the given one with
    [r ^ k <= n], found bit by bit. *)
Fixpoint root_bits (k n : Z) (bit : nat) (r : Z) : Z :=
  match bit with
  | O => r
  | S bit' =>
      let r' := r + 2 ^ Z.of_nat bit' in
      root_bits k n bit' (if r' ^ k <=? n then r' else r)
  end.

Definition root_fraction (k p : Z) : Z :=
  wrap (root_bits k (p * 2 ^ (32 * k)) 36 0).

Definition K : list Z :=
  Eval vm_compute in List.map (root_fraction 3) primes.

(** The eight working words [a .. h], also the shape of a hash value. *)
Record words8 := W8 { wa : Z; wb : Z; wc : Z; wd : Z; we : Z; wf : Z; wg : Z; wh : Z }.

Definition H0 : words8 :=
  Eval vm_compute in
    match List.map (root_fraction 2) (firstn 8 primes) with
    | [a; b; c; d; e; f; g; h] => W8 a b c d e f g h
    | _ => W8 0 0 0 0 0 0 0 0
    end.

(** Padding: the byte 0x80, zero bytes up to 56 modulo 64, then the
    bit length on eight bytes, most significant first. *)
Definition be_bytes (n : nat) (x : Z) : list Z :=
  map (fun i => (Z.shiftr x (8 * Z.of_nat i)) mod 256) (rev (seq 0 n)).

Definition pad (msg : list Z) : list Z :=
  let len := Z.of_nat (List.length msg) in
  msg ++ [0x80] ++ repeat 0 (Z.to_nat ((55 - len) mod 64)) ++ be_bytes 8 (8 * len).

Definition be_word (b0 b1 b2 b3 : Z) : Z :=
  Z.lor (Z.lor (Z.shiftl b0 24) (Z.shiftl b1 16)) (Z.lor (Z.shiftl b2 8) b3).

Fixpoint to_words (bs : list Z) : list Z :=
  match bs with
  | b0 :: b1 :: b2 :: b3 :: rest => be_word b0 b1 b2 b3 :: to_words rest
  | _ => []
  end.

Fixpoint chunks (fuel : nat) (ws : list Z) : list (list Z) :=
  match fuel, ws with
  | O, _ | _, [] => []
  | S fuel', _ => firstn 16 ws :: chunks fuel' (skipn 16 ws)
  end.

(** The message schedule, kept most recent word first while it grows. *)
Fixpoint extend (n : nat) (rw : list Z) : list Z :=
  match n with
  | O => rw
  | S n' =>
      let wt := add32 (add32 (sigma1 (nth 1 rw 0)) (nth 6 rw 0))
                      (add32 (sigma0 (nth 14 rw 0)) (nth 15 rw 0)) in
      extend n' (wt :: rw)
  end.

Definition schedule (block : list Z) : list Z := rev (extend 48 (rev block)).

Definition round (s : words8) (kw : Z * Z) : words8 :=
  let '(W8 a b c d e f g h) := s in
  let t1 := add32 (add32 (add32 h (Sigma1 e)) (add32 (Ch e f g) (fst kw))) (snd kw) in
  let t2 := add32 (Sigma0 a) (Maj a b c) in
  W8 (add32 t1 t2) a b c (add32 d t1) e f g.

Definition compress (hv : words8) (block : list Z) : words8 :=
  let '(W8 a b c d e f g h) := fold_left round (combine K (schedule block)) hv in
  W8 (add32 (wa hv) a) (add32 (wb hv) b) (add32 (wc hv) c) (add32 (wd hv) d)
     (add32 (we hv) e) (add32 (wf hv) f) (add32 (wg hv) g) (add32 (wh hv) h).

Definition digest (msg : list Z) : words8 :=
  let ws := to_words (pad msg) in
  fold_left compress (chunks (List.length ws) ws) H0.

Definition hex_digit (x : Z) : ascii :=
  if x <? 10 then ascii_of_N (Z.to_N (48 + x)) else ascii_of_N (Z.to_N (87 + x)).

(** [n] lowercase hexadecimal digits of [x], most significant first. *)
Definition hex (n : nat) (x : Z) : list ascii :=
  map (fun i => hex_digit ((Z.shiftr x (4 * Z.of_nat i)) mod 16)) (rev (seq 0 n)).

Definition hexdigest (msg : list Z) : list ascii :=
  let '(W8 a b c d e f g h) := digest msg in
  hex 8 a ++ hex 8 b ++ hex 8 c ++ hex 8 d ++ hex 8 e ++ hex 8 f ++ hex 8 g ++ hex 8 h.

End Sha256.

(** [str.encode()]: UTF-8, for code points below 256. *)
Definition encode_char (c : ascii) : list Z :=
  let n := Z.of_N (N_of_ascii c) in
  if n <? 128 then [n]
  else [Z.lor 0xC0 (Z.shiftr n 6); Z.lor 0x80 (Z.land n 0x3F)].

Definition encode (s : string) : list Z :=
  flat_map encode_char (list_ascii_of_string s).

Definition sha256_hexdigest (s : string) : string :=
  string_of_list_ascii (Sha256.hexdigest (encode s)).


(** ** Python values *)

(** A value as [json.loads] builds it and [json.dumps] reads it.  A
    [float] is carried by its [repr] text, which is what [dumps] writes
    for it; a [dict] has string keys, kept in insertion order. *)
#[local] Unset Elimination Schemes.
Inductive json : Type :=
| JNull
| JBool (b : bool)
| JInt (n : Z)
| JFloat (repr : string)
| JStr (s : string)
| JList (l : list json)
| JDict (d : list (string * json)).
#[local] Set Elimination Schemes.

(** Truth value of a Python object, as [if x] and [not x] test it. *)
Definition truthy (j : json) : bool :=
  match j with
  | JNull => false
  | JBool b => b
  | JInt n => negb (n =? 0)
  | JFloat r => negb (String.eqb r "0.0" || String.eqb r "-0.0")
  | JStr s => negb (String.eqb s "")
  | JList l => match l with [] => false | _ => true end
  | JDict d => match d with [] => false | _ => true end
  end.

(** [str(n)] for an [int]. *)
Definition str_of_Z (n : Z) : string := NilZero.string_of_int (Z.to_int n).

(** [sep.join(parts)]. *)
Fixpoint join (sep : string) (parts : list string) : string :=
  match parts with
  | [] => ""
  | [p] => p
  | p :: rest => p +:+ sep +:+ join sep rest
  end.

(** ** json.dumps(records, sort_keys=True)

    The defaults apply to everything else: [ensure_ascii=True],
    separators [", "] and [": "], no indentation. *)

Definition hex4 (n : Z) : string :=
  string_of_list_ascii (Sha256.hex 4 n).

Definition escape_char (c : ascii) : string :=
  let n := Z.of_N (N_of_ascii c) in
  if n =? 34 then "\" +:+ String c ""
  else if n =? 92 then "\\"
  else if n =? 10 then "\n"
  else if n =? 13 then "\r"
  else if n =? 9 then "\t"
  else if n =? 8 then "\b"
  else if n =? 12 then "\f"
  else if (32 <=? n) && (n <=? 126) then String c ""
  else "\u" +:+ hex4 n.

Fixpoint escape (s : string) : string :=
  match s with
  | EmptyString => ""
  | String c rest => escape_char c +:+ escape rest
  end.

Definition quote : string := String (ascii_of_nat 34) "".

Definition encode_basestring_ascii (s : string) : string :=
  quote +:+ escape s +:+ quote.

(** [sorted(dct.items())], keys compared code point by code point.  The
    sort is stable; an item goes in front of the first item whose key is
    not smaller. *)
Section Sorted_items.
Context {A : Type}.

Fixpoint insert_item (x : string * A) (l : list (string * A)) : list (string * A) :=
  match l with
  | [] => [x]
  | y :: rest =>
      if String.leb (fst x) (fst y) then x :: l else y :: insert_item x rest
  end.

Fixpoint sorted_items (l : list (string * A)) : list (string * A) :=
  match l with
  | [] => []
  | x :: rest => insert_item x (sorted_items rest)
  end.
End Sorted_items.

Definition dumps_item (kv : string * string) : string :=
  encode_basestring_ascii (fst kv) +:+ ": " +:+ snd kv.

(** The items of a [dict] are rendered first and sorted afterwards: the
    order depends on the keys alone, so this is the text the encoder
    writes when it sorts the items and then renders each value. *)
Fixpoint dumps (j : json) : string :=
  match j with
  | JNull => "null"
  | JBool true => "true"
  | JBool false => "false"
  | JInt n => str_of_Z n
  | JFloat r => r
  | JStr s => encode_basestring_ascii s
  | JList l => "[" +:+ join ", " (List.map dumps l) +:+ "]"
  | JDict d =>
      "{" +:+ join ", "
        (List.map dumps_item
           (sorted_items (List.map (fun kv => let '(k, v) := kv in (k, dumps v)) d)))
      +:+ "}"
  end.

(** ** The idempotency token *)

(** [s[::2]]. *)
Fixpoint slice_step2 (s : string) : string :=
  match s with
  | EmptyString => ""
  | String c EmptyString => String c ""
  | String c (String _ rest) => String c (slice_step2 rest)
  end.

Fixpoint str_drop (n : nat) (s : string) : string :=
  match n, s with
  | O, _ => s
  | S n', EmptyString => ""
  | S n', String _ rest => str_drop n' rest
  end.

(** [s[-n:]] for [n > 0]: the whole of [s] when it is shorter than [n]. *)
Definition slice_last (n : nat) (s : string) : string :=
  str_drop (String.length s - n) s.

Definition _generate_client_request_token (records : list json) : string :=
  let token := sha256_hexdigest (dumps (JList records)) in
  slice_step2 token +:+ slice_last 4 token.


(** ** Exceptions, state and the monad of the controller *)

Inductive exn : Type :=
| KeyError (key : string)
| TypeError
| AttributeError
| ClientError (code : string).

Inductive result (A : Type) : Type :=
| Ok (a : A)
| Raise (e : exn).
Arguments Ok {A} a.
Arguments Raise {A} e.

Inductive level : Type := DEBUG | INFO | ERROR.

(** One ["Update"] entry of the transaction. *)
Record TransactWriteItem : Type := {
  TableName : string;
  Key_pk : string;
  UpdateExpression : string;
  ExpressionAttributeValues : list (string * string)
}.

(** The attributes of a [StatusMetricController] (the first four
    fields) and what it has done to the outside world: the calls made on
    [logger], oldest first, and the calls made on
    [ddb_client.transact_write_items], oldest first, each with its
    [TransactItems] and its [ClientRequestToken]. *)
Record state : Type := {
  counted_logs : list string;
  records : list json;
  workflow_run_metrics : gmap string (gmap string Z);
  client_request_token : string;
  logged : list (level * string);
  submitted : list (list TransactWriteItem * string)
}.

Definition M (A : Type) : Type := state -> result A * state.

Definition ret {A} (a : A) : M A := fun st => (Ok a, st).

Definition raise {A} (e : exn) : M A := fun st => (Raise e, st).

Definition bind {A B} (c : M A) (k : A -> M B) : M B :=
  fun st =>
    match c st with
    | (Ok a, st') => k a st'
    | (Raise e, st') => (Raise e, st')
    end.

Definition lift {A} (r : result A) : M A := fun st => (r, st).

Notation "'let*' x ':=' c 'in' k" := (bind c (fun x => k))
  (at level 10, x name, c at level 100, k at level 200).

Definition log (lv : level) (msg : string) : M unit :=
  fun st =>
    (Ok tt,
     {| counted_logs := counted_logs st; records := records st;
        workflow_run_metrics := workflow_run_metrics st;
        client_request_token := client_request_token st;
        logged := logged st ++ [(lv, msg)];
        submitted := submitted st |}).

Definition append_counted_log (entry : string) : M unit :=
  fun st =>
    (Ok tt,
     {| counted_logs := counted_logs st ++ [entry]; records := records st;
        workflow_run_metrics := workflow_run_metrics st;
        client_request_token := client_request_token st;
        logged := logged st;
        submitted := submitted st |}).

Definition set_metrics (m : gmap string (gmap string Z)) (st : state) : state :=
  {| counted_logs := counted_logs st; records := records st;
     workflow_run_metrics := m;
     client_request_token := client_request_token st;
     logged := logged st;
     submitted := submitted st |}.

(** ** Constants and types of the modules the controller imports *)

(** Modelled from the spec: [GlacierTransferModel.StatusCode] is not in
    src/.  Its three members used here are the statuses REQUESTED, STAGED
    and DOWNLOADED of the transition table; the controller builds the
    counter names [f"{status}_count"] and [f"{status}_size"] from them,
    and the six keys of [_initial_metric] fix their text. *)
Module StatusCode.
Definition REQUESTED : string := "requested".
Definition STAGED : string := "staged".
Definition DOWNLOADED : string := "downloaded".
End StatusCode.

(** Modelled from the spec: [GlacierTransferMetadata] is not in src/.
    These are the snapshot fields the controller reads: the workflow
    run, the record kind, the size and the record identifier (either may
    be missing), and the status field. *)
Record GlacierTransferMetadata : Type := {
  workflow_run : string;
  retrieval_type : string;
  size : option Z;
  archive_id : option string;
  retrieve_status : string
}.

(** ** String helpers *)

(** [s.split(sep)] for a one-character separator. *)
Fixpoint split (sep : ascii) (s : string) : list string :=
  match s with
  | EmptyString => [""]
  | String c rest =>
      if Ascii.eqb c sep then "" :: split sep rest
      else match split sep rest with
           | [] => [String c ""]
           | h :: t => String c h :: t
           end
  end.

(** [s.split("/")[-1]]; [split] never returns the empty list. *)
Definition last_segment (s : string) : string :=
  List.last (split "/" s) "".

(** [d.get(k)] on an insertion-ordered [dict]. *)
Fixpoint dict_get (k : string) (d : list (string * json)) : option json :=
  match d with
  | [] => None
  | (k', v) :: rest => if String.eqb k k' then Some v else dict_get k rest
  end.

(** [j[k]] for a string [k]. *)
Definition getitem (j : json) (k : string) : result json :=
  match j with
  | JDict d =>
      match dict_get k d with
      | Some v => Ok v
      | None => Raise (KeyError k)
      end
  | _ => Raise TypeError
  end.

(** [d.get(k) == s] for a string literal [s]. *)
Definition get_equals (d : list (string * json)) (k s : string) : bool :=
  match dict_get k d with
  | Some (JStr v) => String.eqb v s
  | _ => false
  end.


(** ** The controller *)

Section Controller.

(** The collaborators that are not in src/ are parameters of the
    development; every theorem below holds whatever they are. *)

(** [GlacierTransferMetadata.parse(image)]: the snapshot read from a
    stream image, or the exception the parser raises. *)
Variable parse : json -> result GlacierTransferMetadata.

(** [GlacierJobType.ARCHIVE_RETRIEVAL]. *)
Variable ARCHIVE_RETRIEVAL : string.

(** The text of [new_metadata] in an f-string. *)
Variable metadata_text : GlacierTransferMetadata -> string.

(** The text, in an f-string, of
    [GlacierTransferModel(workflow_run, glacier_object_id).key["pk"]]. *)
Variable archive_key : string -> string -> string.

(** [OutputKeys.METRIC_TABLE_NAME], and [os.environ.get]. *)
Variable METRIC_TABLE_NAME : string.
Variable environ : string -> option string.

(** The answer of [ddb_client.transact_write_items] to a submission,
    given the submissions made before it. *)
Variable transact_write_items :
  list (list TransactWriteItem * string) ->
  list TransactWriteItem * string -> result unit.

Definition _initial_metric : gmap string Z :=
  list_to_map
    [ ("requested_count", 0); ("requested_size", 0);
      ("staged_count", 0); ("staged_size", 0);
      ("downloaded_count", 0); ("downloaded_size", 0) ].

Definition __init__ (records : list json) : state :=
  {| counted_logs := [];
     records := records;
     workflow_run_metrics := ∅;
     client_request_token := _generate_client_request_token records;
     logged := [];
     submitted := [] |}.

(** [self.workflow_run_metrics[workflow_run][key] += v], on the
    mapping.  The outer mapping is a [defaultdict]: reading a missing
    [workflow_run] stores [_initial_metric()] under it first.  The
    inner mapping is a plain [dict]: a missing [key] raises
    [KeyError], after the outer mapping was touched. *)
Definition iadd (workflow_run key : string) (v : Z)
    (metrics : gmap string (gmap string Z))
    : result unit * gmap string (gmap string Z) :=
  let touched :=
    match metrics !! workflow_run with
    | Some _ => metrics
    | None => <[workflow_run := _initial_metric]> metrics
    end in
  let inner := default _initial_metric (metrics !! workflow_run) in
  match inner !! key with
  | None => (Raise (KeyError key), touched)
  | Some old => (Ok tt, <[workflow_run := <[key := old + v]> inner]> touched)
  end.

Definition metric_iadd (workflow_run key : string) (v : Z) : M unit :=
  fun st =>
    let '(r, metrics) := iadd workflow_run key v (workflow_run_metrics st) in
    (r, set_metrics metrics st).

Definition status_mapping : list ((option string * string) * string) :=
  [ ((None, StatusCode.REQUESTED), StatusCode.REQUESTED);
    ((Some StatusCode.REQUESTED, StatusCode.STAGED), StatusCode.STAGED);
    ((Some StatusCode.STAGED, StatusCode.DOWNLOADED), StatusCode.DOWNLOADED) ].

(** [mapping.get(key, None)] on a [dict] keyed by pairs. *)
Fixpoint mapping_get (key : option string * string)
    (mapping : list ((option string * string) * string)) : option string :=
  match mapping with
  | [] => None
  | (k, v) :: rest =>
      if decide (key = k) then Some v else mapping_get key rest
  end.

(** Truth value of an [Optional[str]] and of an [Optional[int]]. *)
Definition truthy_str (o : option string) : bool :=
  match o with
  | Some s => negb (String.eqb s "")
  | None => false
  end.

Definition truthy_int (o : option Z) : bool :=
  match o with
  | Some n => negb (n =? 0)
  | None => false
  end.

Definition increase_archive_status_metric_counter
    (new_image : json) (old_image : json) : M unit :=
  let* new_metadata := lift (parse new_image) in
  let workflow_run := workflow_run new_metadata in
  if negb (String.eqb (retrieval_type new_metadata) ARCHIVE_RETRIEVAL) then
    ret tt
  else if negb (truthy_int (size new_metadata))
          || negb (truthy_str (archive_id new_metadata)) then
    log ERROR ("Failed to read archive's metadata from " +:+ metadata_text new_metadata)
  else
    let new_status := last_segment (retrieve_status new_metadata) in
    let* old_status :=
      (if truthy old_image then
         let* old_metadata := lift (parse old_image) in
         ret (Some (last_segment (retrieve_status old_metadata)))
       else ret None) in
    let result_status := mapping_get (old_status, new_status) status_mapping in
    let archive_id :=
      archive_key workflow_run (default "" (archive_id new_metadata)) in
    if truthy_str result_status then
      let result_status := default "" result_status in
      let* _ := log DEBUG ("Archive:" +:+ archive_id +:+ " - handled_status:" +:+ new_status) in
      let* _ := append_counted_log
                  ("Archive:" +:+ archive_id +:+ " - counted_status:" +:+ new_status) in
      let* _ := metric_iadd workflow_run (result_status +:+ "_count") 1 in
      metric_iadd workflow_run (result_status +:+ "_size")
        (default 0 (size new_metadata))
    else
      log INFO ("Archive:" +:+ archive_id +:+ " - unhandled_status:" +:+ new_status).

(** The body of the loop of [handle_archive_status_changed].  An
    INSERT event calls the counter with its default [old_image=None]. *)
Definition handle_record (record : json) : M unit :=
  match record with
  | JDict d =>
      if get_equals d "eventSource" "aws:dynamodb" then
        if get_equals d "eventName" "INSERT" then
          let* dynamodb := lift (getitem record "dynamodb") in
          let* new_image := lift (getitem dynamodb "NewImage") in
          increase_archive_status_metric_counter new_image JNull
        else if get_equals d "eventName" "MODIFY" then
          let* dynamodb := lift (getitem record "dynamodb") in
          let* new_image := lift (getitem dynamodb "NewImage") in
          let* dynamodb' := lift (getitem record "dynamodb") in
          let* old_image := lift (getitem dynamodb' "OldImage") in
          increase_archive_status_metric_counter new_image old_image
        else ret tt
      else ret tt
  | _ => raise AttributeError
  end.

Fixpoint for_each {A} (body : A -> M unit) (l : list A) : M unit :=
  match l with
  | [] => ret tt
  | x :: rest => let* _ := body x in for_each body rest
  end.

(** [d[k] = v] on an insertion-ordered [dict] of strings. *)
Fixpoint dict_set (k v : string) (d : list (string * string)) : list (string * string) :=
  match d with
  | [] => [(k, v)]
  | (k', v') :: rest =>
      if String.eqb k k' then (k, v) :: rest else (k', v') :: dict_set k v rest
  end.

(** The two nested loops of [update_metric_query] for one workflow
    run, on the pairs of [attribute_status] and [attribute_type] in
    the order the source visits them. *)
Definition attribute_pairs : list (string * string) :=
  [ (StatusCode.REQUESTED, "count"); (StatusCode.REQUESTED, "size");
    (StatusCode.STAGED, "count"); (StatusCode.STAGED, "size");
    (StatusCode.DOWNLOADED, "count"); (StatusCode.DOWNLOADED, "size") ].

Fixpoint collect_attributes (metrics : gmap string Z) (pairs : list (string * string))
    (expression_attribute_values : list (string * string)) (updates : list string)
    : result (list (string * string) * list string) :=
  match pairs with
  | [] => Ok (expression_attribute_values, updates)
  | (attribute_status, attribute_type) :: rest =>
      let attribute_key := ":update_" +:+ attribute_status +:+ "_" +:+ attribute_type in
      match metrics !! (attribute_status +:+ "_" +:+ attribute_type) with
      | None => Raise (KeyError (attribute_status +:+ "_" +:+ attribute_type))
      | Some n =>
          collect_attributes metrics rest
            (dict_set attribute_key (str_of_Z n) expression_attribute_values)
            (updates ++ [attribute_type +:+ "_" +:+ attribute_status +:+ " " +:+ attribute_key])
      end
  end.

Definition transact_item (workflow_run : string) (metrics : gmap string Z)
    : result TransactWriteItem :=
  match collect_attributes metrics attribute_pairs [] [] with
  | Raise e => Raise e
  | Ok (expression_attribute_values, updates) =>
      let update_expression := join ", " updates in
      match environ METRIC_TABLE_NAME with
      | None => Raise (KeyError METRIC_TABLE_NAME)
      | Some table =>
          Ok {| TableName := table;
                Key_pk := workflow_run;
                UpdateExpression := "ADD " +:+ update_expression;
                ExpressionAttributeValues := expression_attribute_values |}
      end
  end.

Fixpoint transact_items_of (items : list (string * gmap string Z))
    : result (list TransactWriteItem) :=
  match items with
  | [] => Ok []
  | (workflow_run, metrics) :: rest =>
      match transact_item workflow_run metrics with
      | Raise e => Raise e
      | Ok item =>
          match transact_items_of rest with
          | Raise e => Raise e
          | Ok more => Ok (item :: more)
          end
      end
  end.

(** [ddb_client.transact_write_items(TransactItems=..., ClientRequestToken=...)]. *)
Definition submit (items : list TransactWriteItem) (token : string) : M unit :=
  fun st =>
    (transact_write_items (submitted st) (items, token),
     {| counted_logs := counted_logs st; records := records st;
        workflow_run_metrics := workflow_run_metrics st;
        client_request_token := client_request_token st;
        logged := logged st;
        submitted := submitted st ++ [(items, token)] |}).

(** One run of the body of [update_metric_query].  Creating the client
    is taken to succeed.  The items follow [map_to_list], not the
    insertion order of the Python [dict]; the transaction is a set of
    updates of distinct rows and nothing below depends on their
    order. *)
Definition update_metric_query_attempt : M unit :=
  fun st =>
    match records st with
    | [] => (Ok tt, st)
    | _ :: _ =>
        (let* transact_items :=
           lift (transact_items_of (map_to_list (workflow_run_metrics st))) in
         let* _ :=
           match transact_items with
           | [] => ret tt
           | _ :: _ => submit transact_items (client_request_token st)
           end in
         for_each (log INFO) (counted_logs st)) st
    end.

(** Modelled from the spec: the decorator [retry] of
    [solution.application.util.retry] is not in src/.  The call is
    attempted up to [max_retries] times; an attempt that raises is
    followed by the next one, and the exception of the last attempt is
    raised again. *)
Fixpoint retry (max_retries : nat) (attempt : M unit) : M unit :=
  fun st =>
    match attempt st with
    | (Ok tt, st') => (Ok tt, st')
    | (Raise e, st') =>
        match max_retries with
        | S (S _ as remaining) => retry remaining attempt st'
        | _ => (Raise e, st')
        end
    end.

Definition update_metric_query : M unit :=
  retry 10 update_metric_query_attempt.

Definition handle_archive_status_changed : M unit :=
  fun st =>
    (let* _ := for_each handle_record (records st) in
     update_metric_query) st.

(** *** The decision and its effects

    What follows is not in the source as such: it is
    [increase_archive_status_metric_counter] and the loop body cut in
    two, the decision taken for an event ([classify],
    [record_verdict]) and the effects that carry it out ([enact]).
    [handle_record_enact] below shows that the source functions are
    the one followed by the other. *)

Inductive verdict : Type :=
| Raised (e : exn)
| Ignored
| OutOfDomain
| Malformed (new_metadata : GlacierTransferMetadata)
| Unhandled (archive new_status : string)
| Counted (workflow_run result_status : string) (size : Z)
          (archive new_status : string).

(** [old_status], lines 139 to 143. *)
Definition old_status_of (old_image : json) : result (option string) :=
  if truthy old_image then
    match parse old_image with
    | Ok old_metadata => Ok (Some (last_segment (retrieve_status old_metadata)))
    | Raise e => Raise e
    end
  else Ok None.

Definition classify (new_image old_image : json) : verdict :=
  match parse new_image with
  | Raise e => Raised e
  | Ok new_metadata =>
      if negb (String.eqb (retrieval_type new_metadata) ARCHIVE_RETRIEVAL) then
        OutOfDomain
      else if negb (truthy_int (size new_metadata))
              || negb (truthy_str (archive_id new_metadata)) then
        Malformed new_metadata
      else
        match old_status_of old_image with
        | Raise e => Raised e
        | Ok old_status =>
            let new_status := last_segment (retrieve_status new_metadata) in
            let result_status := mapping_get (old_status, new_status) status_mapping in
            let archive :=
              archive_key (workflow_run new_metadata)
                (default "" (archive_id new_metadata)) in
            if truthy_str result_status then
              Counted (workflow_run new_metadata) (default "" result_status)
                (default 0 (size new_metadata)) archive new_status
            else Unhandled archive new_status
        end
  end.

(** The images the loop passes to the counter for a record, [None]
    for a record it passes over. *)
Definition images_of (record : json) : result (option (json * json)) :=
  match record with
  | JDict d =>
      if get_equals d "eventSource" "aws:dynamodb" then
        if get_equals d "eventName" "INSERT" then
          match getitem record "dynamodb" with
          | Raise e => Raise e
          | Ok dynamodb =>
              match getitem dynamodb "NewImage" with
              | Raise e => Raise e
              | Ok new_image => Ok (Some (new_image, JNull))
              end
          end
        else if get_equals d "eventName" "MODIFY" then
          match getitem record "dynamodb" with
          | Raise e => Raise e
          | Ok dynamodb =>
              match getitem dynamodb "NewImage" with
              | Raise e => Raise e
              | Ok new_image =>
                  match getitem dynamodb "OldImage" with
                  | Raise e => Raise e
                  | Ok old_image => Ok (Some (new_image, old_image))
                  end
              end
          end
        else Ok None
      else Ok None
  | _ => Raise AttributeError
  end.

Definition record_verdict (record : json) : verdict :=
  match images_of record with
  | Raise e => Raised e
  | Ok None => Ignored
  | Ok (Some (new_image, old_image)) => classify new_image old_image
  end.

Definition enact (v : verdict) : M unit :=
  match v with
  | Raised e => raise e
  | Ignored | OutOfDomain => ret tt
  | Malformed new_metadata =>
      log ERROR ("Failed to read archive's metadata from " +:+ metadata_text new_metadata)
  | Unhandled archive new_status =>
      log INFO ("Archive:" +:+ archive +:+ " - unhandled_status:" +:+ new_status)
  | Counted workflow_run result_status size archive new_status =>
      let* _ := log DEBUG ("Archive:" +:+ archive +:+ " - handled_status:" +:+ new_status) in
      let* _ := append_counted_log
                  ("Archive:" +:+ archive +:+ " - counted_status:" +:+ new_status) in
      let* _ := metric_iadd workflow_run (result_status +:+ "_count") 1 in
      metric_iadd workflow_run (result_status +:+ "_size") size
  end.

(** What [enact] writes to the two logs and does to the counters. *)
Definition verdict_logged (v : verdict) : list (level * string) :=
  match v with
  | Raised _ | Ignored | OutOfDomain => []
  | Malformed new_metadata =>
      [(ERROR, "Failed to read archive's metadata from " +:+ metadata_text new_metadata)]
  | Unhandled archive new_status =>
      [(INFO, "Archive:" +:+ archive +:+ " - unhandled_status:" +:+ new_status)]
  | Counted _ _ _ archive new_status =>
      [(DEBUG, "Archive:" +:+ archive +:+ " - handled_status:" +:+ new_status)]
  end.

Definition verdict_counted_logs (v : verdict) : list string :=
  match v with
  | Counted _ _ _ archive new_status =>
      ["Archive:" +:+ archive +:+ " - counted_status:" +:+ new_status]
  | _ => []
  end.

Definition verdict_metrics (v : verdict) (metrics : gmap string (gmap string Z))
    : result unit * gmap string (gmap string Z) :=
  match v with
  | Raised e => (Raise e, metrics)
  | Counted workflow_run result_status size _ _ =>
      match iadd workflow_run (result_status +:+ "_count") 1 metrics with
      | (Ok _, metrics') => iadd workflow_run (result_status +:+ "_size") size metrics'
      | (Raise e, metrics') => (Raise e, metrics')
      end
  | _ => (Ok tt, metrics)
  end.

End Controller.

(** ** Counters *)

Definition counter_keys : list string :=
  [ "requested_count"; "requested_size"; "staged_count"; "staged_size";
    "downloaded_count"; "downloaded_size" ].

(** [metrics[workflow_run][key]], when both are there. *)
Definition counter (m : gmap string (gmap string Z)) (w k : string) : option Z :=
  match m !! w with
  | Some d => d !! k
  | None => None
  end.

(** Every workflow run in the mapping has its six counters. *)
Definition metrics_complete (m : gmap string (gmap string Z)) : Prop :=
  forall w d, m !! w = Some d -> forall k, In k counter_keys -> is_Some (d !! k).

(** No workflow run and no counter is lost, and no counter is smaller. *)
Definition metrics_le (m m' : gmap string (gmap string Z)) : Prop :=
  forall w d, m !! w = Some d ->
    exists d', m' !! w = Some d'
      /\ forall k v, d !! k = Some v -> exists v', d' !! k = Some v' /\ v <= v'.

Definition metrics_nonneg (m : gmap string (gmap string Z)) : Prop :=
  forall w d k v, m !! w = Some d -> d !! k = Some v -> 0 <= v.

(** The per-workflow deltas a run ends with, when it ends without an
    exception. *)
Definition deltas (r : result unit * state) : option (gmap string (gmap string Z)) :=
  match fst r with
  | Ok _ => Some (workflow_run_metrics (snd r))
  | Raise _ => None
  end.

(** A verdict that counts names one of the three statuses. *)
Definition statuses : list string :=
  [ StatusCode.REQUESTED; StatusCode.STAGED; StatusCode.DOWNLOADED ].

Definition verdict_valid (v : verdict) : Prop :=
  match v with
  | Counted _ result_status _ _ _ => In result_status statuses
  | _ => True
  end.

(** The two counters of a status after one more counted event. *)
Definition bump_inner (result_status : string) (size : Z) (d : gmap string Z) : gmap string Z :=
  let d1 := <[result_status +:+ "_count" := default 0 (d !! (result_status +:+ "_count")) + 1]> d in
  <[result_status +:+ "_size" := default 0 (d1 !! (result_status +:+ "_size")) + size]> d1.

Definition bump (workflow_run result_status : string) (size : Z)
    (m : gmap string (gmap string Z)) : gmap string (gmap string Z) :=
  <[workflow_run := bump_inner result_status size (default _initial_metric (m !! workflow_run))]> m.

(** The effect of a verdict on the counters. *)
Definition account (v : verdict) (m : gmap string (gmap string Z))
    : option (gmap string (gmap string Z)) :=
  match v with
  | Raised _ => None
  | Counted w rs z _ _ => Some (bump w rs z m)
  | _ => Some m
  end.

Fixpoint account_all (vs : list verdict) (m : gmap string (gmap string Z))
    : option (gmap string (gmap string Z)) :=
  match vs with
  | [] => Some m
  | v :: rest =>
      match account v m with
      | Some m' => account_all rest m'
      | None => None
      end
  end.


(** ** Test doubles

    Stand-ins for the collaborators that are parameters above, used to
    run the controller on concrete batches.  The parser double reads an
    image whose attributes carry the snapshot's fields under their own
    names. *)
Module Double.

Definition parse (image : json) : result GlacierTransferMetadata :=
  match image with
  | JDict d =>
      match dict_get "workflow_run" d, dict_get "retrieval_type" d,
            dict_get "retrieve_status" d with
      | Some (JStr w), Some (JStr t), Some (JStr s) =>
          Ok {| workflow_run := w;
                retrieval_type := t;
                size := match dict_get "size" d with
                        | Some (JInt n) => Some n
                        | _ => None
                        end;
                archive_id := match dict_get "archive_id" d with
                              | Some (JStr a) => Some a
                              | _ => None
                              end;
                retrieve_status := s |}
      | None, _, _ => Raise (KeyError "workflow_run")
      | _, None, _ => Raise (KeyError "retrieval_type")
      | _, _, None => Raise (KeyError "retrieve_status")
      | _, _, _ => Raise TypeError
      end
  | _ => Raise TypeError
  end.

Definition ARCHIVE_RETRIEVAL : string := "archive-retrieval".

Definition metadata_text (m : GlacierTransferMetadata) : string :=
  workflow_run m +:+ ":" +:+ default "None" (archive_id m).

Definition archive_key (workflow_run glacier_object_id : string) : string :=
  workflow_run +:+ "|" +:+ glacier_object_id.

Definition METRIC_TABLE_NAME : string := "MetricTableName".

Definition environ (name : string) : option string :=
  if String.eqb name METRIC_TABLE_NAME then Some "metric-table" else None.

(** A store that accepts every submission. *)
Definition transact_write_items
    (earlier : list (list TransactWriteItem * string))
    (submission : list TransactWriteItem * string) : result unit := Ok tt.

Definition image (workflow_run kind status : string)
    (size : option Z) (archive_id : option string) : json :=
  JDict ([ ("workflow_run", JStr workflow_run);
           ("retrieval_type", JStr kind);
           ("retrieve_status", JStr status) ]
         ++ match size with Some n => [("size", JInt n)] | None => [] end
         ++ match archive_id with Some a => [("archive_id", JStr a)] | None => [] end).

Definition insert_event (new_image : json) : json :=
  JDict [ ("eventSource", JStr "aws:dynamodb");
          ("eventName", JStr "INSERT");
          ("dynamodb", JDict [("NewImage", new_image)]) ].

Definition modify_event (old_image new_image : json) : json :=
  JDict [ ("eventSource", JStr "aws:dynamodb");
          ("eventName", JStr "MODIFY");
          ("dynamodb", JDict [("NewImage", new_image); ("OldImage", old_image)]) ].

(** Sample snapshots and a controller with nothing in it. *)
Definition requested_A : json :=
  image "wf1" "archive-retrieval" "wf1/requested" (Some 1000) (Some "A").

Definition staged_B : json :=
  image "wf2" "archive-retrieval" "wf2/staged" (Some 2048) (Some "B").

Definition requested_B : json :=
  image "wf2" "archive-retrieval" "wf2/requested" (Some 2048) (Some "B").

Definition no_size_C : json :=
  image "wf1" "archive-retrieval" "wf1/requested" None (Some "C").

Definition zero_size_D : json :=
  image "wf1" "archive-retrieval" "wf1/requested" (Some 0) (Some "D").

Definition inventory_E : json :=
  image "wf1" "inventory-retrieval" "wf1/requested" (Some 512) (Some "E").

Definition blank : state :=
  {| counted_logs := []; records := []; workflow_run_metrics := ∅;
     client_request_token := ""; logged := []; submitted := [] |}.

Definition run (records : list json) : result unit * state :=
  handle_archive_status_changed parse ARCHIVE_RETRIEVAL metadata_text archive_key
    METRIC_TABLE_NAME environ transact_write_items (__init__ records).

End Double.

(** ** What the further properties speak of *)

(** A lowercase hexadecimal digit. *)
Definition is_hex_digit (c : ascii) : bool :=
  let n := Z.of_N (N_of_ascii c) in
  ((48 <=? n) && (n <=? 57)) || ((97 <=? n) && (n <=? 102)).

(** [int(s)] for the decimal text of an integer. *)
Definition int_of_str (s : string) : option Z :=
  option_map Z.of_int (NilZero.int_of_string s).

(** A counter read as a delta: zero while the workflow run or the
    counter is not there. *)
Definition counter_or_zero (m : gmap string (gmap string Z)) (w k : string) : Z :=
  default 0 (default _initial_metric (m !! w) !! k).

(** The events of a batch counted for a workflow run, all statuses
    together and for one status, and the bytes of the latter. *)
Definition touches (w : string) (v : verdict) : bool :=
  match v with
  | Counted w' _ _ _ _ => String.eqb w w'
  | _ => false
  end.

Definition counts_for (w rs : string) (v : verdict) : bool :=
  match v with
  | Counted w' rs' _ _ _ => String.eqb w w' && String.eqb rs rs'
  | _ => false
  end.

Definition verdict_size (v : verdict) : Z :=
  match v with
  | Counted _ _ z _ _ => z
  | _ => 0
  end.

Definition counted_events (w rs : string) (vs : list verdict) : Z :=
  Z.of_nat (List.length (List.filter (counts_for w rs) vs)).

Definition counted_bytes (w rs : string) (vs : list verdict) : Z :=
  fold_right Z.add 0 (List.map verdict_size (List.filter (counts_for w rs) vs)).

(** A record the loop passes over: not from the table's stream, or
    neither an INSERT nor a MODIFY. *)
Definition foreign (record : json) : bool :=
  match record with
  | JDict d =>
      negb (get_equals d "eventSource" "aws:dynamodb")
      || (negb (get_equals d "eventName" "INSERT")
          && negb (get_equals d "eventName" "MODIFY"))
  | _ => false
  end.

(** [d.get(k)] on an insertion-ordered [dict] of strings. *)
Fixpoint attr_get (k : string) (d : list (string * string)) : option string :=
  match d with
  | [] => None
  | (k', v) :: rest => if String.eqb k k' then Some v else attr_get k rest
  end.

(** The submission one attempt of [update_metric_query] makes on a
    controller: none for an empty batch, none when no item was built. *)
Definition payload (METRIC_TABLE_NAME : string) (environ : string -> option string)
    (st : state) : list (list TransactWriteItem * string) :=
  match records st with
  | [] => []
  | _ :: _ =>
      match transact_items_of METRIC_TABLE_NAME environ
              (map_to_list (workflow_run_metrics st)) with
      | Ok (item :: items) => [(item :: items, client_request_token st)]
      | _ => []
      end
  end.

(** ** More sample data *)
Module Samples.

Definition handle : json -> M unit :=
  handle_record Double.parse Double.ARCHIVE_RETRIEVAL Double.metadata_text
    Double.archive_key.

Definition remove_event : json :=
  JDict [ ("eventSource", JStr "aws:dynamodb");
          ("eventName", JStr "REMOVE");
          ("dynamodb", JDict [("OldImage", Double.requested_A)]) ].

Definition other_source_event : json :=
  JDict [ ("eventSource", JStr "aws:s3"); ("eventName", JStr "INSERT") ].

Definition insert_without_images : list (string * json) :=
  [ ("eventSource", JStr "aws:dynamodb"); ("eventName", JStr "INSERT") ].

(** A controller after the loop counted one REQUESTED event. *)
Definition one_delta : state :=
  {| counted_logs := ["Archive:wf1|A - counted_status:requested"];
     records := [Double.insert_event Double.requested_A];
     workflow_run_metrics :=
       {[ "wf1" := <["requested_size" := 1000]>
                     (<["requested_count" := 1]> _initial_metric) ]};
     client_request_token := "0123456789abcdef0123456789abcdef0123";
     logged := [(DEBUG, "Archive:wf1|A - handled_status:requested")];
     submitted := [] |}.

(** A controller on a batch whose second record is not a [dict]. *)
Definition before_bad_record : state :=
  {| counted_logs := [];
     records := [Double.insert_event Double.requested_A; JNull];
     workflow_run_metrics := ∅;
     client_request_token := "0123456789abcdef0123456789abcdef0123";
     logged := [];
     submitted := [] |}.

Definition no_environ (name : string) : option string := None.


Definition item_of_initial_metric : TransactWriteItem :=
  {| TableName := "metric-table";
     Key_pk := "wf1";
     UpdateExpression :=
       "ADD count_requested :update_requested_count, "
       +:+ "size_requested :update_requested_size, "
       +:+ "count_staged :update_staged_count, "
       +:+ "size_staged :update_staged_size, "
       +:+ "count_downloaded :update_downloaded_count, "
       +:+ "size_downloaded :update_downloaded_size";
     ExpressionAttributeValues :=
       [ (":update_requested_count", "0"); (":update_requested_size", "0");
         (":update_staged_count", "0"); (":update_staged_size", "0");
         (":update_downloaded_count", "0"); (":update_downloaded_size", "0") ] |}.

End Samples.

(** ** Content of a batch up to key-insertion order *)

(** Two values have the same content when they differ only in the order
    in which the keys of their [dict]s were inserted, at any depth. *)
#[local] Unset Elimination Schemes.
Inductive same_content : json -> json -> Prop :=
| same_null : same_content JNull JNull
| same_bool b : same_content (JBool b) (JBool b)
| same_int n : same_content (JInt n) (JInt n)
| same_float r : same_content (JFloat r) (JFloat r)
| same_str s : same_content (JStr s) (JStr s)
| same_list l l' :
    Forall2 same_content l l' ->
    same_content (JList l) (JList l')
| same_dict d d' d'' :
    Permutation d d' ->
    Forall2 (fun kv kv' => fst kv = fst kv' /\ same_content (snd kv) (snd kv')) d' d'' ->
    same_content (JDict d) (JDict d'').
#[local] Set Elimination Schemes.

(** A Python [dict] holds each key once. *)
Fixpoint keys_distinct (keys : list string) : bool :=
  match keys with
  | [] => true
  | k :: rest => negb (existsb (String.eqb k) rest) && keys_distinct rest
  end.

Fixpoint well_formed (j : json) : bool :=
  match j with
  | JList l => forallb well_formed l
  | JDict d =>
      keys_distinct (List.map fst d)
      && forallb (fun kv => let '(_, v) := kv in well_formed v) d
  | _ => true
  end.

(** * Properties *)

(** ** Induction on values *)

Lemma json_ind (P : json -> Prop) :
  P JNull ->
  (forall b, P (JBool b)) ->
  (forall n, P (JInt n)) ->
  (forall r, P (JFloat r)) ->
  (forall s, P (JStr s)) ->
  (forall l, Forall P l -> P (JList l)) ->
  (forall d, Forall (fun kv => P (snd kv)) d -> P (JDict d)) ->
  forall j, P j.
Proof.
  intros Hnull Hbool Hint Hfloat Hstr Hlist Hdict.
  fix IH 1. intros [ | b | n | r | s | l | d ].
  - exact Hnull.
  - apply Hbool.
  - apply Hint.
  - apply Hfloat.
  - apply Hstr.
  - apply Hlist. induction l as [ | x l IHl ]; constructor; [ apply IH | exact IHl ].
  - apply Hdict. induction d as [ | [k v] d IHd ]; constructor; [ apply IH | exact IHd ].
Qed.

(** ** Strings *)

Lemma length_string_of_list_ascii (l : list ascii) :
  String.length (string_of_list_ascii l) = List.length l.
Proof. induction l as [ | c l IH ]; simpl; [ reflexivity | now rewrite IH ]. Qed.

Lemma length_app_string (a b : string) :
  String.length (a +:+ b) = (String.length a + String.length b)%nat.
Proof. induction a as [ | c a IH ]; simpl; [ reflexivity | now rewrite IH ]. Qed.

Lemma slice_step2_pair (s : string) :
  (String.length (slice_step2 s) = Nat.div2 (S (String.length s)))
  /\ (forall c, String.length (slice_step2 (String c s)) = Nat.div2 (S (S (String.length s)))).
Proof.
  induction s as [ | c s [IH1 IH2] ]; [ split; reflexivity | ].
  split; [ apply IH2 | ].
  intros c'. simpl. simpl in IH1. destruct s; simpl in *; lia.
Qed.

Lemma length_slice_step2 (s : string) :
  String.length (slice_step2 s) = Nat.div2 (S (String.length s)).
Proof. apply slice_step2_pair. Qed.

Lemma length_str_drop (n : nat) (s : string) :
  String.length (str_drop n s) = (String.length s - n)%nat.
Proof.
  revert s. induction n as [ | n IH ]; intros s; simpl; [ lia | ].
  destruct s; simpl; [ reflexivity | apply IH ].
Qed.

Lemma get_slice_step2 (s : string) (i : nat) :
  String.get i (slice_step2 s) = String.get (2 * i) s.
Proof.
  revert s. induction i as [ | i IH ]; intros s.
  - destruct s as [ | c [ | c' s ] ]; reflexivity.
  - destruct s as [ | c [ | c' s ] ]; simpl; try reflexivity.
    rewrite IH. replace (i + S (i + 0))%nat with (S (2 * i)) by lia. reflexivity.
Qed.

Lemma get_str_drop (n i : nat) (s : string) :
  String.get i (str_drop n s) = String.get (n + i) s.
Proof.
  revert s. induction n as [ | n IH ]; intros s; simpl; [ reflexivity | ].
  destruct s; simpl; [ destruct i; reflexivity | apply IH ].
Qed.

Lemma get_app_l (a b : string) (i : nat) :
  (i < String.length a)%nat -> String.get i (a +:+ b) = String.get i a.
Proof.
  revert i. induction a as [ | c a IH ]; intros i Hi; simpl in *; [ lia | ].
  destruct i; [ reflexivity | apply IH; lia ].
Qed.

Lemma get_app_r (a b : string) (i : nat) :
  String.get (String.length a + i) (a +:+ b) = String.get i b.
Proof. induction a as [ | c a IH ]; simpl; [ reflexivity | exact IH ]. Qed.

(** ** The digest *)

Lemma length_hex (n : nat) (x : Z) : List.length (Sha256.hex n x) = n.
Proof. unfold Sha256.hex. rewrite length_map, length_rev, length_seq. reflexivity. Qed.

Lemma length_hexdigest (msg : list Z) : List.length (Sha256.hexdigest msg) = 64%nat.
Proof.
  unfold Sha256.hexdigest. destruct (Sha256.digest msg).
  rewrite !length_app, !length_hex. reflexivity.
Qed.

Lemma length_sha256_hexdigest (s : string) :
  String.length (sha256_hexdigest s) = 64%nat.
Proof.
  unfold sha256_hexdigest. rewrite length_string_of_list_ascii. apply length_hexdigest.
Qed.

(** The digest on the test vectors of the standard, one and two
    blocks long, and the token of the empty batch. *)
Example sha256_abc :
  sha256_hexdigest "abc"
  = "ba7816bf8f01cfea414140de5dae2223b00361a396177a9cb410ff61f20015ad".
Proof. vm_compute. reflexivity. Qed.

Example sha256_two_blocks :
  sha256_hexdigest "abcdbcdecdefdefgefghfghighijhijkijkljklmklmnlmnomnopnopq"
  = "248d6a61d20638b8e5c026930c3e6039a33ce45964ff2167f6ecedd419db06c1".
Proof. vm_compute. reflexivity. Qed.

Example token_of_empty_batch :
  dumps (JList []) = "[]"
  /\ sha256_hexdigest "[]"
     = "4f53cda18c2baa0c0354bb5f9a3ecbe5ed12ab4d8e11ba873c2f11161202b945"
  /\ _generate_client_request_token [] = "45ca82a005b593cee1a481b8321110b4b945".
Proof. vm_compute. repeat split. Qed.

(** C8: for every batch, the empty one included, the token has exactly
    36 characters: its first 32 are the characters of the SHA-256 hex
    digest of the serialized batch at the even positions 0, 2, ..., 62,
    and its last four are the last four characters of the digest. *)
Theorem client_request_token_shape (records : list json) :
  let digest := sha256_hexdigest (dumps (JList records)) in
  let token := _generate_client_request_token records in
  String.length digest = 64%nat
  /\ String.length token = 36%nat
  /\ token = slice_step2 digest +:+ slice_last 4 digest
  /\ (forall i, (i < 32)%nat -> String.get i token = String.get (2 * i) digest)
  /\ (forall i, (i < 4)%nat -> String.get (32 + i) token = String.get (60 + i) digest).
Proof.
  intros digest token.
  assert (Hd : String.length digest = 64%nat) by apply length_sha256_hexdigest.
  assert (Hs : String.length (slice_step2 digest) = 32%nat).
  { rewrite length_slice_step2, Hd. reflexivity. }
  assert (Ht : token = slice_step2 digest +:+ slice_last 4 digest) by reflexivity.
  repeat split; try assumption.
  - rewrite Ht, length_app_string, Hs. unfold slice_last.
    rewrite length_str_drop, Hd. reflexivity.
  - intros i Hi. rewrite Ht, get_app_l by lia. apply get_slice_step2.
  - intros i Hi. rewrite Ht. rewrite <- Hs at 1. rewrite get_app_r.
    unfold slice_last. rewrite get_str_drop, Hd. reflexivity.
Qed.

(** ** The order on keys and the sorted items *)

Lemma ascii_compare_lt_trans (a b c : ascii) :
  Ascii.compare a b = Lt -> Ascii.compare b c = Lt -> Ascii.compare a c = Lt.
Proof.
  unfold Ascii.compare. rewrite !N.compare_lt_iff. lia.
Qed.

Lemma string_compare_lt_trans (a b c : string) :
  String.compare a b = Lt -> String.compare b c = Lt -> String.compare a c = Lt.
Proof.
  revert b c. induction a as [ | x a IH ]; intros [ | y b ] [ | z c ]; simpl; try congruence.
  destruct (Ascii.compare x y) eqn:Hxy; try discriminate;
    destruct (Ascii.compare y z) eqn:Hyz; try discriminate; intros Hab Hbc.
  - apply Ascii.compare_eq_iff in Hxy, Hyz. subst.
    rewrite (proj2 (N.compare_eq_iff _ _) eq_refl : Ascii.compare z z = Eq).
    eapply IH; eassumption.
  - apply Ascii.compare_eq_iff in Hxy. subst. rewrite Hyz. reflexivity.
  - apply Ascii.compare_eq_iff in Hyz. subst. rewrite Hxy. reflexivity.
  - rewrite (ascii_compare_lt_trans _ _ _ Hxy Hyz). reflexivity.
Qed.

Lemma leb_cases (a b : string) :
  String.leb a b = true <-> String.compare a b = Lt \/ a = b.
Proof.
  unfold String.leb. destruct (String.compare a b) eqn:Hc; split; intros H;
    try reflexivity; try discriminate; auto.
  - right. apply String.compare_eq_iff. exact Hc.
  - destruct H as [H | ->]; [ discriminate | ].
    rewrite String.compare_antisym in Hc.
    destruct (String.compare b b) eqn:Hbb; try discriminate.
    pose proof (String.compare_antisym b b) as Ha. rewrite Hbb in Ha. discriminate.
Qed.

Lemma leb_trans (a b c : string) :
  String.leb a b = true -> String.leb b c = true -> String.leb a c = true.
Proof.
  rewrite !leb_cases. intros [Hab | ->] [Hbc | ->]; auto.
  left. eapply string_compare_lt_trans; eassumption.
Qed.

Lemma leb_false_flip (a b : string) :
  String.leb a b = false -> String.leb b a = true.
Proof.
  intros H. destruct (String.leb_total a b) as [H' | H']; congruence.
Qed.

Section Sorted_items_facts.
Context {A : Type}.
Implicit Types (x y : string * A) (l : list (string * A)).

Lemma insert_item_swap x y l :
  fst x <> fst y ->
  insert_item x (insert_item y l) = insert_item y (insert_item x l).
Proof.
  intros Hne. induction l as [ | z l IH ]; simpl.
  - destruct (String.leb (fst x) (fst y)) eqn:Hxy,
             (String.leb (fst y) (fst x)) eqn:Hyx; try reflexivity.
    + exfalso. apply Hne. apply String.leb_antisym; assumption.
    + apply leb_false_flip in Hxy. congruence.
  - destruct (String.leb (fst y) (fst z)) eqn:Hyz,
             (String.leb (fst x) (fst z)) eqn:Hxz; simpl;
      rewrite ?Hyz, ?Hxz.
    + destruct (String.leb (fst x) (fst y)) eqn:Hxy,
               (String.leb (fst y) (fst x)) eqn:Hyx; try reflexivity.
      * exfalso. apply Hne. apply String.leb_antisym; assumption.
      * apply leb_false_flip in Hxy. congruence.
    + destruct (String.leb (fst x) (fst y)) eqn:Hxy; [ | reflexivity ].
      pose proof (leb_trans _ _ _ Hxy Hyz). congruence.
    + destruct (String.leb (fst y) (fst x)) eqn:Hyx; [ | reflexivity ].
      pose proof (leb_trans _ _ _ Hyx Hxz). congruence.
    + rewrite IH. reflexivity.
Qed.

(** With distinct keys the sorted items do not depend on the order in
    which the items were inserted. *)
Lemma sorted_items_perm l l' :
  Permutation l l' ->
  List.NoDup (List.map fst l) ->
  sorted_items l = sorted_items l'.
Proof.
  induction 1 as [ | x l l' Hp IH | x y l | l l' l'' Hp1 IH1 Hp2 IH2 ]; intros Hnd.
  - reflexivity.
  - simpl. rewrite IH; [ reflexivity | ]. simpl in Hnd.
    apply List.NoDup_cons_iff in Hnd. apply Hnd.
  - simpl. apply insert_item_swap. simpl in Hnd.
    apply List.NoDup_cons_iff in Hnd as [Hnd _]. intros Heq. apply Hnd.
    rewrite Heq. left. reflexivity.
  - rewrite IH1 by exact Hnd. apply IH2.
    eapply Permutation_NoDup; [ | exact Hnd ]. apply Permutation_map. exact Hp1.
Qed.
End Sorted_items_facts.

Lemma keys_distinct_NoDup (keys : list string) :
  keys_distinct keys = true -> List.NoDup keys.
Proof.
  induction keys as [ | k keys IH ]; simpl; intros H; [ constructor | ].
  apply andb_prop in H as [Hk Hrest]. constructor; [ | apply IH; exact Hrest ].
  intros Hin. apply negb_true_iff in Hk.
  assert (existsb (String.eqb k) keys = true); [ | congruence ].
  apply existsb_exists. exists k. split; [ | apply String.eqb_refl ].
  exact Hin.
Qed.

(** ** Canonical serialization *)

Lemma map_related {A B} (R : A -> A -> Prop) (f : A -> B) (l l' : list A) :
  Forall2 R l l' ->
  Forall (fun a => forall a', R a a' -> f a = f a') l ->
  List.map f l = List.map f l'.
Proof.
  induction 1 as [ | a a' l l' Ha Hrest IH ]; intros Hall; [ reflexivity | ].
  simpl. f_equal.
  - apply (Forall_inv Hall). exact Ha.
  - apply IH. apply (Forall_inv_tail Hall).
Qed.

Lemma dumps_same_content (a : json) :
  forall b, well_formed a = true -> same_content a b -> dumps a = dumps b.
Proof.
  induction a as [ | | | | | l IH | d IH ] using json_ind;
    intros other Hwf Hsame; inversion Hsame; subst; try reflexivity.
  - simpl. do 3 f_equal.
    eapply map_related; [ eassumption | ].
    simpl in Hwf. rewrite forallb_forall in Hwf.
    rewrite Forall_forall in IH |- *. intros x Hx x' Hxx'.
    apply IH; [ exact Hx | apply Hwf; apply list_elem_of_In; exact Hx | exact Hxx' ].
  - simpl. do 4 f_equal.
    simpl in Hwf. apply andb_prop in Hwf as [Hkeys Hvals].
    rewrite forallb_forall in Hvals.
    set (render := fun kv : string * json => let '(k, v) := kv in (k, dumps v)).
    assert (Hmap : List.map render d' = List.map render d'').
    { eapply map_related; [ eassumption | ].
      rewrite Forall_forall in IH |- *. intros [k v] Hkv [k' v'] [Hk Hv].
      simpl in *. subst k'. f_equal.
      assert (Hin : In (k, v) d).
      { eapply Permutation_in; [ symmetry; eassumption | ].
        apply list_elem_of_In. exact Hkv. }
      apply (IH (k, v)); [ apply list_elem_of_In; exact Hin | | exact Hv ].
      apply (Hvals (k, v)). exact Hin. }
    rewrite <- Hmap. apply sorted_items_perm.
    + apply Permutation_map. assumption.
    + rewrite map_map.
      replace (List.map (fun kv => fst (render kv)) d) with (List.map fst d).
      * apply keys_distinct_NoDup. exact Hkeys.
      * apply map_ext. intros [k v]. reflexivity.
Qed.

(** C2: the token is a function of the serialized batch alone, and two
    batches with the same content up to the insertion order of the keys
    of their maps serialize to the same text and so get the same
    token. *)
Theorem client_request_token_deterministic (B B' : list json) :
  well_formed (JList B) = true ->
  same_content (JList B) (JList B') ->
  dumps (JList B) = dumps (JList B')
  /\ _generate_client_request_token B = _generate_client_request_token B'
  /\ (forall C, dumps (JList C) = dumps (JList B) ->
        _generate_client_request_token C = _generate_client_request_token B).
Proof.
  intros Hwf Hsame.
  assert (Hd : dumps (JList B) = dumps (JList B')) by (apply dumps_same_content; assumption).
  split; [ exact Hd | ]. split.
  - unfold _generate_client_request_token. rewrite Hd. reflexivity.
  - intros C HC. unfold _generate_client_request_token. rewrite HC. reflexivity.
Qed.

Lemma client_request_token_deterministic_witness :
  _generate_client_request_token
    [JDict [("eventName", JStr "INSERT"); ("eventSource", JStr "aws:dynamodb")]]
  = _generate_client_request_token
      [JDict [("eventSource", JStr "aws:dynamodb"); ("eventName", JStr "INSERT")]].
Proof.
  refine (proj1 (proj2 (client_request_token_deterministic _ _ _ _))).
  - reflexivity.
  - apply same_list. constructor; [ | constructor ].
    eapply same_dict; [ apply perm_swap | ].
    repeat constructor.
Defined.

(** ** The transition table and truth values *)

Lemma mapping_get_status_mapping (old_status : option string) (new_status rs : string) :
  mapping_get (old_status, new_status) status_mapping = Some rs ->
  (old_status = None /\ new_status = StatusCode.REQUESTED /\ rs = StatusCode.REQUESTED)
  \/ (old_status = Some StatusCode.REQUESTED /\ new_status = StatusCode.STAGED
      /\ rs = StatusCode.STAGED)
  \/ (old_status = Some StatusCode.STAGED /\ new_status = StatusCode.DOWNLOADED
      /\ rs = StatusCode.DOWNLOADED).
Proof.
  unfold status_mapping, mapping_get. intros H.
  repeat match type of H with
         | context [decide ?P] => destruct (decide P) as [Heq | _];
                                  [ inversion Heq; inversion H; subst; clear H; tauto | ]
         end.
  discriminate.
Qed.

Lemma truthy_str_Some (o : option string) :
  truthy_str o = true -> exists s, o = Some s /\ s <> "".
Proof.
  destruct o as [s | ]; simpl; [ | discriminate ].
  intros H. exists s. split; [ reflexivity | ].
  intros ->. discriminate.
Qed.

Lemma truthy_int_Some (o : option Z) :
  truthy_int o = true -> exists n, o = Some n /\ n <> 0.
Proof.
  destruct o as [n | ]; simpl; [ | discriminate ].
  intros H. exists n. split; [ reflexivity | ].
  intros ->. discriminate.
Qed.


(** ** The source functions and the decision they take *)

Section Controller_facts.

Variable parse : json -> result GlacierTransferMetadata.
Variable ARCHIVE_RETRIEVAL : string.
Variable metadata_text : GlacierTransferMetadata -> string.
Variable archive_key : string -> string -> string.

#[local] Abbreviation increase :=
  (increase_archive_status_metric_counter parse ARCHIVE_RETRIEVAL metadata_text archive_key).
#[local] Abbreviation handle :=
  (handle_record parse ARCHIVE_RETRIEVAL metadata_text archive_key).
#[local] Abbreviation decide_event := (classify parse ARCHIVE_RETRIEVAL archive_key).
#[local] Abbreviation decide_record := (record_verdict parse ARCHIVE_RETRIEVAL archive_key).
#[local] Abbreviation carry_out := (enact metadata_text).

Lemma increase_enact (new_image old_image : json) (st : state) :
  increase new_image old_image st = carry_out (decide_event new_image old_image) st.
Proof.
  unfold increase_archive_status_metric_counter, classify, old_status_of, bind, lift.
  destruct (parse new_image) as [md | e]; [ | reflexivity ].
  destruct (negb (String.eqb (retrieval_type md) ARCHIVE_RETRIEVAL)); [ reflexivity | ].
  destruct (negb (truthy_int (size md)) || negb (truthy_str (archive_id md)));
    [ reflexivity | ].
  destruct (truthy old_image).
  - destruct (parse old_image) as [omd | e]; [ | reflexivity ]. simpl.
    destruct (truthy_str _); reflexivity.
  - simpl. destruct (truthy_str _); reflexivity.
Qed.

Lemma handle_record_enact (record : json) (st : state) :
  handle record st = carry_out (decide_record record) st.
Proof.
  unfold handle_record, record_verdict, images_of.
  destruct record as [ | | | | | | d ]; try reflexivity.
  destruct (get_equals d "eventSource" "aws:dynamodb"); [ | reflexivity ].
  destruct (get_equals d "eventName" "INSERT").
  - unfold bind, lift.
    destruct (getitem (JDict d) "dynamodb") as [dyn | e]; [ | reflexivity ].
    destruct (getitem dyn "NewImage") as [new | e]; [ | reflexivity ].
    apply increase_enact.
  - destruct (get_equals d "eventName" "MODIFY"); [ | reflexivity ].
    unfold bind, lift.
    destruct (getitem (JDict d) "dynamodb") as [dyn | e]; [ | reflexivity ].
    destruct (getitem dyn "NewImage") as [new | e]; [ | reflexivity ].
    destruct (getitem dyn "OldImage") as [old | e]; [ | reflexivity ].
    apply increase_enact.
Qed.

Lemma enact_shape (v : verdict) (st : state) :
  carry_out v st =
    (fst (verdict_metrics v (workflow_run_metrics st)),
     {| counted_logs := counted_logs st ++ verdict_counted_logs v;
        records := records st;
        workflow_run_metrics := snd (verdict_metrics v (workflow_run_metrics st));
        client_request_token := client_request_token st;
        logged := logged st ++ verdict_logged metadata_text v;
        submitted := submitted st |}).
Proof.
  destruct st as [cl rs m tk lg sb].
  destruct v as [e | | | md | a ns | w rs' z a ns]; simpl;
    unfold raise, ret, log; simpl; rewrite ?app_nil_r; try reflexivity.
  unfold bind, log, append_counted_log, metric_iadd, set_metrics. simpl.
  destruct (iadd w (rs' +:+ "_count") 1 m) as [[[] | e] m1]; simpl; [ | reflexivity ].
  destruct (iadd w (rs' +:+ "_size") z m1) as [r m2]. reflexivity.
Qed.

(** The loop body leaves alone everything but the two logs and the
    counters; what it does to the counters depends on the counters
    alone. *)
Lemma handle_record_shape (record : json) (st : state) :
  let v := decide_record record in
  handle record st =
    (fst (verdict_metrics v (workflow_run_metrics st)),
     {| counted_logs := counted_logs st ++ verdict_counted_logs v;
        records := records st;
        workflow_run_metrics := snd (verdict_metrics v (workflow_run_metrics st));
        client_request_token := client_request_token st;
        logged := logged st ++ verdict_logged metadata_text v;
        submitted := submitted st |}).
Proof. intros v. rewrite handle_record_enact. apply enact_shape. Qed.

#[local] Arguments mapping_get : simpl never.

(** An event counts exactly when its snapshot is an archive retrieval
    with a size and an identifier and its statuses are an entry of the
    transition table. *)
Lemma classify_counted (new_image old_image : json) (w rs : string) (z : Z)
    (a ns : string) :
  decide_event new_image old_image = Counted w rs z a ns ->
  exists md old_status,
    parse new_image = Ok md
    /\ retrieval_type md = ARCHIVE_RETRIEVAL
    /\ size md = Some z /\ z <> 0
    /\ (exists i, archive_id md = Some i /\ i <> "")
    /\ old_status_of parse old_image = Ok old_status
    /\ ns = last_segment (retrieve_status md)
    /\ mapping_get (old_status, ns) status_mapping = Some rs
    /\ w = workflow_run md.
Proof.
  unfold classify. destruct (parse new_image) as [md | e]; [ | discriminate ].
  destruct (String.eqb_spec (retrieval_type md) ARCHIVE_RETRIEVAL) as [Hk | Hk];
    simpl; [ | discriminate ].
  destruct (truthy_int (size md)) eqn:Hsize; simpl; [ | discriminate ].
  destruct (truthy_str (archive_id md)) eqn:Hid; simpl; [ | discriminate ].
  destruct (old_status_of parse old_image) as [os | e]; [ | discriminate ].
  cbv zeta.
  destruct (truthy_str (mapping_get (os, last_segment (retrieve_status md)) status_mapping))
    eqn:Hrs; [ | discriminate ].
  intros H. inversion H; subst; clear H.
  apply truthy_int_Some in Hsize as (n & Hn & Hn0).
  apply truthy_str_Some in Hrs as (r & Hr & _).
  exists md, os. rewrite Hn, Hr. simpl.
  repeat split; try assumption; try reflexivity.
  apply truthy_str_Some. exact Hid.
Qed.

Lemma classify_valid (new_image old_image : json) :
  verdict_valid (decide_event new_image old_image).
Proof.
  destruct (decide_event new_image old_image) as [ | | | | | w rs z a ns ] eqn:Hv;
    simpl; try exact I.
  apply classify_counted in Hv as (md & os & _ & _ & _ & _ & _ & _ & _ & Hmap & _).
  apply mapping_get_status_mapping in Hmap
    as [(_ & _ & ->) | [(_ & _ & ->) | (_ & _ & ->)]]; simpl; tauto.
Qed.

Lemma record_verdict_valid (record : json) : verdict_valid (decide_record record).
Proof.
  unfold record_verdict. destruct (images_of record) as [[[new old] | ] | e];
    simpl; try exact I. apply classify_valid.
Qed.

End Controller_facts.

(** ** Counters *)

Lemma initial_metric_complete (k : string) :
  In k counter_keys -> is_Some (_initial_metric !! k).
Proof.
  unfold counter_keys. simpl.
  intros [<- | [<- | [<- | [<- | [<- | [<- | []]]]]]]; vm_compute; eauto.
Qed.

Lemma initial_metric_nonneg (k : string) (v : Z) :
  _initial_metric !! k = Some v -> v = 0.
Proof.
  unfold _initial_metric. simpl.
  rewrite !lookup_insert. repeat case_decide; try congruence.
  rewrite lookup_empty. discriminate.
Qed.

Lemma status_keys (rs : string) :
  In rs statuses ->
  In (rs +:+ "_count") counter_keys
  /\ In (rs +:+ "_size") counter_keys
  /\ rs +:+ "_count" <> rs +:+ "_size".
Proof.
  unfold statuses, counter_keys. simpl.
  intros [<- | [<- | [<- | []]]]; simpl; repeat split; try tauto; discriminate.
Qed.

Lemma keys_apart (a b : string) :
  In a statuses -> In b statuses -> a +:+ "_count" <> b +:+ "_size".
Proof.
  unfold statuses. simpl.
  intros [<- | [<- | [<- | []]]] [<- | [<- | [<- | []]]]; discriminate.
Qed.

Lemma inner_complete (m : gmap string (gmap string Z)) (w k : string) :
  metrics_complete m -> In k counter_keys ->
  is_Some (default _initial_metric (m !! w) !! k).
Proof.
  intros Hm Hk. destruct (m !! w) as [d | ] eqn:Hw; simpl.
  - eapply Hm; eassumption.
  - apply initial_metric_complete. exact Hk.
Qed.

Lemma iadd_ok (w k : string) (v old : Z) (m : gmap string (gmap string Z)) :
  default _initial_metric (m !! w) !! k = Some old ->
  iadd w k v m = (Ok tt, <[w := <[k := old + v]> (default _initial_metric (m !! w))]> m).
Proof.
  intros H. unfold iadd. rewrite H.
  destruct (m !! w); [ reflexivity | ]. rewrite insert_insert_eq. reflexivity.
Qed.

Lemma bump_lookup (w rs : string) (z : Z) (m : gmap string (gmap string Z)) (w' : string) :
  bump w rs z m !! w' =
    if decide (w' = w)
    then Some (bump_inner rs z (default _initial_metric (m !! w)))
    else m !! w'.
Proof.
  unfold bump. case_decide as Hw.
  - subst. apply lookup_insert_eq.
  - apply lookup_insert_ne. congruence.
Qed.

Lemma bump_inner_lookup (rs : string) (z : Z) (d : gmap string Z) (k : string) :
  In rs statuses ->
  bump_inner rs z d !! k =
    if decide (k = rs +:+ "_size") then Some (default 0 (d !! k) + z)
    else if decide (k = rs +:+ "_count") then Some (default 0 (d !! k) + 1)
    else d !! k.
Proof.
  intros Hrs. apply status_keys in Hrs as (_ & _ & Hne).
  unfold bump_inner. cbv zeta.
  case_decide as Hs.
  - subst k. rewrite lookup_insert_eq, lookup_insert_ne by exact Hne. reflexivity.
  - rewrite lookup_insert_ne by congruence.
    case_decide as Hc.
    + subst k. rewrite lookup_insert_eq. reflexivity.
    + rewrite lookup_insert_ne by congruence. reflexivity.
Qed.

(** A counted event with a valid status never raises on a complete
    mapping, and its effect is [bump]. *)
Lemma verdict_metrics_counted (w rs : string) (z : Z) (a ns : string)
    (m : gmap string (gmap string Z)) :
  In rs statuses -> metrics_complete m ->
  verdict_metrics (Counted w rs z a ns) m = (Ok tt, bump w rs z m).
Proof.
  intros Hrs Hm. destruct (status_keys rs Hrs) as (Hc & Hs & Hne).
  destruct (inner_complete m w _ Hm Hc) as [c Hc'].
  destruct (inner_complete m w _ Hm Hs) as [s Hs'].
  simpl. rewrite (iadd_ok _ _ _ c) by exact Hc'.
  rewrite (iadd_ok _ _ _ s).
  - rewrite insert_insert_eq, lookup_insert_eq. simpl.
    unfold bump, bump_inner. rewrite Hc'. simpl.
    rewrite lookup_insert_ne by exact Hne. rewrite Hs'. reflexivity.
  - rewrite lookup_insert_eq. simpl. rewrite lookup_insert_ne by exact Hne. exact Hs'.
Qed.

Lemma bump_complete (w rs : string) (z : Z) (m : gmap string (gmap string Z)) :
  In rs statuses -> metrics_complete m -> metrics_complete (bump w rs z m).
Proof.
  intros Hrs Hm w' d Hd k Hk. rewrite bump_lookup in Hd.
  case_decide as Hw.
  - inversion Hd; subst; clear Hd. rewrite bump_inner_lookup by exact Hrs.
    repeat case_decide; eauto. apply inner_complete; assumption.
  - eapply Hm; eassumption.
Qed.

Lemma verdict_metrics_account (v : verdict) (m : gmap string (gmap string Z)) :
  verdict_valid v -> metrics_complete m ->
  match account v m with
  | Some m' => verdict_metrics v m = (Ok tt, m') /\ metrics_complete m'
  | None => exists e, verdict_metrics v m = (Raise e, m)
  end.
Proof.
  intros Hv Hm. destruct v as [e | | | md | a ns | w rs z a ns]; simpl; eauto.
  simpl in Hv. split.
  - apply (verdict_metrics_counted w rs z a ns); assumption.
  - apply bump_complete; assumption.
Qed.

Lemma bump_inner_comm (rs1 rs2 : string) (z1 z2 : Z) (d : gmap string Z) :
  In rs1 statuses -> In rs2 statuses ->
  bump_inner rs1 z1 (bump_inner rs2 z2 d) = bump_inner rs2 z2 (bump_inner rs1 z1 d).
Proof.
  intros H1 H2. apply map_eq. intros k.
  rewrite !bump_inner_lookup by assumption.
  pose proof (keys_apart rs1 rs2 H1 H2). pose proof (keys_apart rs2 rs1 H2 H1).
  pose proof (keys_apart rs1 rs1 H1 H1). pose proof (keys_apart rs2 rs2 H2 H2).
  repeat case_decide; subst; simpl; try congruence; f_equal; lia.
Qed.

Lemma bump_comm (w1 rs1 : string) (z1 : Z) (w2 rs2 : string) (z2 : Z)
    (m : gmap string (gmap string Z)) :
  In rs1 statuses -> In rs2 statuses ->
  bump w1 rs1 z1 (bump w2 rs2 z2 m) = bump w2 rs2 z2 (bump w1 rs1 z1 m).
Proof.
  intros H1 H2. apply map_eq. intros w.
  rewrite !bump_lookup.
  repeat case_decide; subst; simpl; try congruence.
  f_equal. apply bump_inner_comm; assumption.
Qed.

Lemma account_comm (v1 v2 : verdict) (m : gmap string (gmap string Z)) :
  verdict_valid v1 -> verdict_valid v2 ->
  account_all [v1; v2] m = account_all [v2; v1] m.
Proof.
  intros H1 H2.
  destruct v1 as [ | | | | | w1 rs1 z1 ? ? ], v2 as [ | | | | | w2 rs2 z2 ? ? ];
    simpl; try reflexivity.
  f_equal. symmetry. apply bump_comm; assumption.
Qed.

Lemma account_all_app (vs vs' : list verdict) (m : gmap string (gmap string Z)) :
  account_all (vs ++ vs') m =
    match account_all vs m with
    | Some m' => account_all vs' m'
    | None => None
    end.
Proof.
  revert m. induction vs as [ | v vs IH ]; intros m; simpl; [ reflexivity | ].
  destruct (account v m); [ apply IH | reflexivity ].
Qed.

(** The deltas of a batch are the same whatever the order of its
    events. *)
Lemma account_all_perm (vs vs' : list verdict) :
  Permutation vs vs' ->
  Forall verdict_valid vs ->
  forall m, account_all vs m = account_all vs' m.
Proof.
  induction 1 as [ | v vs vs' Hp IH | v1 v2 vs | vs vs' vs'' Hp1 IH1 Hp2 IH2 ];
    intros Hall m.
  - reflexivity.
  - simpl. destruct (account v m); [ | reflexivity ].
    apply IH. apply (Forall_inv_tail Hall).
  - change (v2 :: v1 :: vs) with ([v2; v1] ++ vs).
    change (v1 :: v2 :: vs) with ([v1; v2] ++ vs).
    rewrite !account_all_app.
    rewrite (account_comm v2 v1 m (Forall_inv Hall) (Forall_inv (Forall_inv_tail Hall))).
    reflexivity.
  - rewrite IH1 by exact Hall. apply IH2.
    eapply Permutation_Forall; eassumption.
Qed.

(** *** Counters only grow *)

Lemma metrics_le_refl (m : gmap string (gmap string Z)) : metrics_le m m.
Proof.
  intros w d Hd. exists d. split; [ exact Hd | ].
  intros k v Hk. exists v. split; [ exact Hk | lia ].
Qed.

Lemma metrics_le_trans (m1 m2 m3 : gmap string (gmap string Z)) :
  metrics_le m1 m2 -> metrics_le m2 m3 -> metrics_le m1 m3.
Proof.
  intros H12 H23 w d Hd.
  destruct (H12 w d Hd) as (d2 & Hd2 & Hle2).
  destruct (H23 w d2 Hd2) as (d3 & Hd3 & Hle3).
  exists d3. split; [ exact Hd3 | ].
  intros k v Hk. destruct (Hle2 k v Hk) as (v2 & Hk2 & Hv2).
  destruct (Hle3 k v2 Hk2) as (v3 & Hk3 & Hv3).
  exists v3. split; [ exact Hk3 | lia ].
Qed.

Lemma metrics_le_insert_fresh (m : gmap string (gmap string Z)) (w : string)
    (d : gmap string Z) :
  m !! w = None -> metrics_le m (<[w := d]> m).
Proof.
  intros Hw w' d' Hd'. exists d'. split.
  - rewrite lookup_insert_ne; [ exact Hd' | congruence ].
  - intros k v Hk. exists v. split; [ exact Hk | lia ].
Qed.

Lemma metrics_le_insert_add (m : gmap string (gmap string Z)) (w k : string)
    (d : gmap string Z) (old v : Z) :
  m !! w = Some d -> d !! k = Some old -> 0 <= v ->
  metrics_le m (<[w := <[k := old + v]> d]> m).
Proof.
  intros Hw Hk Hv w' d' Hd'.
  destruct (decide (w' = w)) as [-> | Hne].
  - rewrite Hw in Hd'. inversion Hd'; subst. exists (<[k := old + v]> d').
    split; [ apply lookup_insert_eq | ].
    intros k' v' Hk'. destruct (decide (k' = k)) as [-> | Hnk].
    + rewrite Hk in Hk'. inversion Hk'; subst.
      exists (v' + v). split; [ apply lookup_insert_eq | lia ].
    + exists v'. split; [ | lia ]. rewrite lookup_insert_ne; [ exact Hk' | congruence ].
  - exists d'. split.
    + rewrite lookup_insert_ne; [ exact Hd' | congruence ].
    + intros k' v' Hk'. exists v'. split; [ exact Hk' | lia ].
Qed.

Lemma iadd_le (w k : string) (v : Z) (m : gmap string (gmap string Z)) :
  0 <= v -> metrics_le m (snd (iadd w k v m)).
Proof.
  intros Hv. unfold iadd.
  destruct (m !! w) as [d | ] eqn:Hw; simpl.
  - destruct (d !! k) as [old | ] eqn:Hk; simpl.
    + apply metrics_le_insert_add; assumption.
    + apply metrics_le_refl.
  - destruct (_initial_metric !! k) as [old | ] eqn:Hk; simpl.
    + rewrite insert_insert_eq. apply metrics_le_insert_fresh. exact Hw.
    + apply metrics_le_insert_fresh. exact Hw.
Qed.

Lemma metrics_nonneg_insert (m : gmap string (gmap string Z)) (w : string)
    (d : gmap string Z) :
  metrics_nonneg m -> (forall k v, d !! k = Some v -> 0 <= v) ->
  metrics_nonneg (<[w := d]> m).
Proof.
  intros Hm Hd w' d' k v Hw' Hk.
  destruct (decide (w' = w)) as [-> | Hne].
  - rewrite lookup_insert_eq in Hw'. inversion Hw'; subst. eapply Hd; eassumption.
  - rewrite lookup_insert_ne in Hw' by congruence. eapply Hm; eassumption.
Qed.

Lemma iadd_nonneg (w k : string) (v : Z) (m : gmap string (gmap string Z)) :
  0 <= v -> metrics_nonneg m -> metrics_nonneg (snd (iadd w k v m)).
Proof.
  intros Hv Hm. unfold iadd.
  assert (Hinner : forall k' v', default _initial_metric (m !! w) !! k' = Some v' -> 0 <= v').
  { intros k' v' H. destruct (m !! w) as [d | ] eqn:Hw; simpl in H.
    - eapply Hm; eassumption.
    - apply initial_metric_nonneg in H. lia. }
  destruct (default _initial_metric (m !! w) !! k) as [old | ] eqn:Hk; simpl.
  - apply metrics_nonneg_insert.
    + destruct (m !! w); [ exact Hm | ].
      apply metrics_nonneg_insert; [ exact Hm | ].
      intros k' v' H. apply initial_metric_nonneg in H. lia.
    + intros k' v'. destruct (decide (k' = k)) as [-> | Hne].
      * rewrite lookup_insert_eq. intros H. inversion H; subst.
        specialize (Hinner _ _ Hk). lia.
      * rewrite lookup_insert_ne by congruence. apply Hinner.
  - destruct (m !! w); [ exact Hm | ].
    apply metrics_nonneg_insert; [ exact Hm | ].
    intros k' v' H. apply initial_metric_nonneg in H. lia.
Qed.

Lemma verdict_metrics_grow (v : verdict) (m : gmap string (gmap string Z)) :
  (forall w rs z a ns, v = Counted w rs z a ns -> 0 <= z) ->
  metrics_le m (snd (verdict_metrics v m))
  /\ (metrics_nonneg m -> metrics_nonneg (snd (verdict_metrics v m))).
Proof.
  intros Hz. destruct v as [e | | | md | a ns | w rs z a ns]; simpl;
    try (split; [ apply metrics_le_refl | tauto ]).
  specialize (Hz _ _ _ _ _ eq_refl).
  pose proof (iadd_le w (rs +:+ "_count") 1 m ltac:(lia)) as Hle1.
  pose proof (iadd_nonneg w (rs +:+ "_count") 1 m ltac:(lia)) as Hnn1.
  destruct (iadd w (rs +:+ "_count") 1 m) as [[[] | e] m1]; simpl in *.
  - pose proof (iadd_le w (rs +:+ "_size") z m1 Hz) as Hle2.
    pose proof (iadd_nonneg w (rs +:+ "_size") z m1 Hz) as Hnn2.
    split; [ eapply metrics_le_trans; eassumption | tauto ].
  - split; assumption.
Qed.

(** ** Loops, logs and workflow runs *)

Lemma for_each_app {A} (body : A -> M unit) (l l' : list A) (st : state) :
  for_each body (l ++ l') st =
    match for_each body l st with
    | (Ok _, st') => for_each body l' st'
    | (Raise e, st') => (Raise e, st')
    end.
Proof.
  revert st. induction l as [ | x l IH ]; intros st; simpl; [ reflexivity | ].
  unfold bind. destruct (body x st) as [[[] | e] st1]; [ apply IH | reflexivity ].
Qed.

Lemma for_each_cons {A} (body : A -> M unit) (x : A) (l : list A) (st : state) :
  for_each body (x :: l) st =
    match body x st with
    | (Ok _, st') => for_each body l st'
    | (Raise e, st') => (Raise e, st')
    end.
Proof. reflexivity. Qed.

Lemma metrics_complete_empty : metrics_complete ∅.
Proof. intros w d H. rewrite lookup_empty in H. discriminate. Qed.

Lemma initial_metric_lookup (k : string) :
  _initial_metric !! k = if decide (k ∈ counter_keys) then Some 0 else None.
Proof.
  unfold _initial_metric, counter_keys. simpl.
  rewrite !lookup_insert, lookup_empty.
  repeat (case_decide; subst);
    try reflexivity;
    repeat match goal with
           | H : ~ (_ ∈ _) |- _ => exfalso; apply H; clear H
           | H : _ ∈ _ |- _ => apply list_elem_of_In in H; simpl in H
           | |- _ ∈ _ => apply list_elem_of_In; simpl; tauto
           end; intuition congruence.
Qed.

Lemma for_each_log_info (entries : list string) (st : state) :
  for_each (log INFO) entries st
  = (Ok tt,
     {| counted_logs := counted_logs st;
        records := records st;
        workflow_run_metrics := workflow_run_metrics st;
        client_request_token := client_request_token st;
        logged := logged st ++ List.map (pair INFO) entries;
        submitted := submitted st |}).
Proof.
  revert st. induction entries as [ | x l IH ]; intros st.
  - simpl. unfold ret. rewrite app_nil_r. destruct st; reflexivity.
  - rewrite for_each_cons. unfold log. rewrite IH. simpl.
    rewrite <- app_assoc. reflexivity.
Qed.

Lemma iadd_keeps_runs (w k : string) (v : Z) (m : gmap string (gmap string Z))
    (w' : string) :
  is_Some (m !! w') \/ w' = w -> is_Some (snd (iadd w k v m) !! w').
Proof.
  intros H. unfold iadd.
  destruct (default _initial_metric (m !! w) !! k); simpl.
  - destruct (decide (w' = w)) as [-> | Hne].
    + rewrite lookup_insert_eq. eauto.
    + rewrite lookup_insert_ne by congruence.
      destruct H as [H | H]; [ | contradiction ].
      destruct (m !! w); [ exact H | ].
      rewrite lookup_insert_ne by congruence. exact H.
  - destruct (m !! w) eqn:Hw.
    + destruct H as [H | ->]; [ exact H | rewrite Hw; eauto ].
    + destruct (decide (w' = w)) as [-> | Hne].
      * rewrite lookup_insert_eq. eauto.
      * rewrite lookup_insert_ne by congruence.
        destruct H as [H | H]; [ exact H | contradiction ].
Qed.

Lemma verdict_metrics_keeps_runs (v : verdict) (m : gmap string (gmap string Z))
    (w' : string) :
  is_Some (m !! w') \/ (exists rs z a ns, v = Counted w' rs z a ns) ->
  is_Some (snd (verdict_metrics v m) !! w').
Proof.
  intros H.
  destruct v as [e | | | md | a ns | w rs z a ns]; simpl;
    try (destruct H as [H | (? & ? & ? & ? & H)]; [ exact H | discriminate ]).
  assert (H1 : is_Some (snd (iadd w (rs +:+ "_count") 1 m) !! w')).
  { apply iadd_keeps_runs. destruct H as [H | (? & ? & ? & ? & H)]; [ left; exact H | ].
    inversion H. right. reflexivity. }
  destruct (iadd w (rs +:+ "_count") 1 m) as [[[] | e] m1]; simpl in *; [ | exact H1 ].
  apply iadd_keeps_runs. left. exact H1.
Qed.

Lemma length_client_request_token (rs : list json) :
  String.length (_generate_client_request_token rs) = 36%nat.
Proof.
  unfold _generate_client_request_token. cbv zeta.
  rewrite length_app_string, length_slice_step2. unfold slice_last.
  rewrite length_str_drop, !length_sha256_hexdigest. reflexivity.
Qed.


(** ** The loop over a batch *)

Section Counter_properties.

Variable parse : json -> result GlacierTransferMetadata.
Variable ARCHIVE_RETRIEVAL : string.
Variable metadata_text : GlacierTransferMetadata -> string.
Variable archive_key : string -> string -> string.

#[local] Abbreviation increase :=
  (increase_archive_status_metric_counter parse ARCHIVE_RETRIEVAL metadata_text archive_key).
#[local] Abbreviation handle :=
  (handle_record parse ARCHIVE_RETRIEVAL metadata_text archive_key).
#[local] Abbreviation decide_event := (classify parse ARCHIVE_RETRIEVAL archive_key).
#[local] Abbreviation decide_record := (record_verdict parse ARCHIVE_RETRIEVAL archive_key).

#[local] Arguments mapping_get : simpl never.

(** The result of the loop and the counters it ends with depend on
    the counters it starts from, not on the rest of the state. *)
Lemma for_each_same_counters (rs : list json) (st1 st2 : state) :
  workflow_run_metrics st1 = workflow_run_metrics st2 ->
  fst (for_each handle rs st1) = fst (for_each handle rs st2)
  /\ workflow_run_metrics (snd (for_each handle rs st1))
     = workflow_run_metrics (snd (for_each handle rs st2)).
Proof.
  revert st1 st2. induction rs as [ | r rs IH ]; intros st1 st2 Hm; simpl.
  - split; [ reflexivity | exact Hm ].
  - unfold bind. rewrite !handle_record_shape. cbv zeta. rewrite Hm.
    destruct (fst (verdict_metrics _ _)) as [[] | e]; simpl.
    + apply IH. reflexivity.
    + split; reflexivity.
Qed.

Lemma for_each_logged (rs : list json) (st : state) (entry : level * string) :
  In entry (logged st) -> In entry (logged (snd (for_each handle rs st))).
Proof.
  revert st. induction rs as [ | r rs IH ]; intros st Hin; simpl; [ exact Hin | ].
  unfold bind. rewrite handle_record_shape. cbv zeta.
  destruct (fst (verdict_metrics _ _)) as [[] | e]; simpl.
  - apply IH. simpl. apply in_or_app. left. exact Hin.
  - apply in_or_app. left. exact Hin.
Qed.

Lemma for_each_deltas (rs : list json) (st : state) :
  metrics_complete (workflow_run_metrics st) ->
  deltas (for_each handle rs st)
  = account_all (List.map decide_record rs) (workflow_run_metrics st).
Proof.
  revert st. induction rs as [ | r rs IH ]; intros st Hm; simpl; [ reflexivity | ].
  unfold bind. rewrite handle_record_shape. cbv zeta.
  pose proof (verdict_metrics_account (decide_record r) (workflow_run_metrics st)
                (record_verdict_valid parse ARCHIVE_RETRIEVAL metadata_text archive_key r) Hm) as Hacc.
  destruct (account (decide_record r) (workflow_run_metrics st)) as [m' | ].
  - destruct Hacc as [Heq Hm']. rewrite Heq. simpl. rewrite IH; [ reflexivity | exact Hm' ].
  - destruct Hacc as [e Heq]. rewrite Heq. reflexivity.
Qed.

(** *** Events that are passed over *)

Lemma malformed_is_skipped (new_image old_image : json) (md : GlacierTransferMetadata)
    (st : state) :
  parse new_image = Ok md ->
  retrieval_type md = ARCHIVE_RETRIEVAL ->
  truthy_int (size md) = false \/ truthy_str (archive_id md) = false ->
  increase new_image old_image st
  = log ERROR ("Failed to read archive's metadata from " +:+ metadata_text md) st.
Proof.
  intros Hp Hk Hbad.
  unfold increase_archive_status_metric_counter, bind, lift. rewrite Hp, Hk.
  rewrite String.eqb_refl. simpl.
  destruct Hbad as [-> | ->]; simpl; [ reflexivity | ].
  rewrite orb_true_r. reflexivity.
Qed.

(** C6: an event whose after snapshot is not an archive retrieval is
    passed over in silence, whatever its statuses, size and
    identifier: the call returns normally and leaves the whole state
    as it was: no counter of any workflow run, no log line. *)
Theorem non_archive_retrieval_contributes_nothing
    (new_image old_image : json) (md : GlacierTransferMetadata) (st : state) :
  parse new_image = Ok md ->
  retrieval_type md <> ARCHIVE_RETRIEVAL ->
  increase new_image old_image st = (Ok tt, st).
Proof.
  intros Hp Hk.
  unfold increase_archive_status_metric_counter, bind, lift. rewrite Hp.
  destruct (String.eqb_spec (retrieval_type md) ARCHIVE_RETRIEVAL) as [Heq | _];
    [ contradiction | reflexivity ].
Qed.

(** C10: an archive-retrieval snapshot whose size is exactly 0, or
    whose identifier is the empty string, is treated as malformed: the
    call returns normally, its only effect is one error-level log
    line, and no counter changes, whatever the statuses (so also for
    a first REQUESTED snapshot with every field present). *)
Theorem zero_size_or_empty_id_is_malformed
    (new_image old_image : json) (md : GlacierTransferMetadata) (st : state) :
  parse new_image = Ok md ->
  retrieval_type md = ARCHIVE_RETRIEVAL ->
  size md = Some 0 \/ archive_id md = Some "" ->
  increase new_image old_image st
  = (Ok tt,
     {| counted_logs := counted_logs st;
        records := records st;
        workflow_run_metrics := workflow_run_metrics st;
        client_request_token := client_request_token st;
        logged := logged st
                  ++ [(ERROR, "Failed to read archive's metadata from " +:+ metadata_text md)];
        submitted := submitted st |}).
Proof.
  intros Hp Hk Hbad.
  rewrite (malformed_is_skipped new_image old_image md st Hp Hk); [ reflexivity | ].
  destruct Hbad as [-> | ->]; [ left | right ]; reflexivity.
Qed.

Lemma handle_record_images (record new_image old_image : json) (st : state) :
  images_of record = Ok (Some (new_image, old_image)) ->
  handle record st = increase new_image old_image st.
Proof.
  intros Himg. rewrite handle_record_enact, increase_enact.
  unfold record_verdict. rewrite Himg. reflexivity.
Qed.

(** C5: an archive-retrieval event with a missing size or a missing
    identifier raises nothing: handling it only writes one
    error-level log line.  A batch that contains it ends with the same
    per-workflow deltas as the batch without it; and when the batch
    without it runs to its end, so does the batch with it, with the
    same counters and with the diagnostic in the log. *)
Theorem malformed_event_leaves_batch_deltas
    (bad new_image old_image : json) (md : GlacierTransferMetadata)
    (pre post : list json) (st : state) :
  images_of bad = Ok (Some (new_image, old_image)) ->
  parse new_image = Ok md ->
  retrieval_type md = ARCHIVE_RETRIEVAL ->
  size md = None \/ archive_id md = None ->
  let diagnostic :=
    (ERROR, "Failed to read archive's metadata from " +:+ metadata_text md) in
  (forall s, handle bad s = log ERROR (snd diagnostic) s)
  /\ deltas (for_each handle (pre ++ bad :: post) st)
     = deltas (for_each handle (pre ++ post) st)
  /\ (forall st1,
        for_each handle (pre ++ post) st = (Ok tt, st1) ->
        exists st2,
          for_each handle (pre ++ bad :: post) st = (Ok tt, st2)
          /\ workflow_run_metrics st2 = workflow_run_metrics st1
          /\ In diagnostic (logged st2)).
Proof.
  intros Himg Hp Hk Hbad diagnostic.
  assert (Hstep : forall s, handle bad s = log ERROR (snd diagnostic) s).
  { intros s. rewrite (handle_record_images _ _ _ _ Himg).
    apply malformed_is_skipped; [ exact Hp | exact Hk | ].
    destruct Hbad as [-> | ->]; [ left | right ]; reflexivity. }
  split; [ exact Hstep | ].
  rewrite !for_each_app.
  destruct (for_each handle pre st) as [[[] | e] s1].
  - rewrite for_each_cons, Hstep. unfold log. cbv beta iota.
    set (s1' := {| counted_logs := counted_logs s1; records := records s1;
                   workflow_run_metrics := workflow_run_metrics s1;
                   client_request_token := client_request_token s1;
                   logged := logged s1 ++ [(ERROR, snd diagnostic)];
                   submitted := submitted s1 |}).
    destruct (for_each_same_counters post s1' s1 eq_refl) as [Hres Hmet].
    split.
    + unfold deltas. rewrite Hres, Hmet. reflexivity.
    + intros st1 Hrun. exists (snd (for_each handle post s1')).
      rewrite Hrun in Hres, Hmet. simpl in Hres, Hmet.
      split; [ | split ].
      * destruct (for_each handle post s1') as [[[] | e] s2]; simpl in *;
          [ reflexivity | discriminate ].
      * exact Hmet.
      * apply for_each_logged. simpl. apply in_or_app. right. left. reflexivity.
  - split; [ reflexivity | ]. intros st1 Hrun. discriminate.
Qed.

(** *** The transition table *)

Lemma classify_counts (new_image old_image : json) (md : GlacierTransferMetadata)
    (os : option string) (rs : string) (z : Z) (i : string) :
  parse new_image = Ok md ->
  retrieval_type md = ARCHIVE_RETRIEVAL ->
  size md = Some z -> z <> 0 ->
  archive_id md = Some i -> i <> "" ->
  old_status_of parse old_image = Ok os ->
  mapping_get (os, last_segment (retrieve_status md)) status_mapping = Some rs ->
  decide_event new_image old_image
  = Counted (workflow_run md) rs z (archive_key (workflow_run md) i)
      (last_segment (retrieve_status md)).
Proof.
  intros Hp Hk Hz Hz0 Hi Hi0 Hos Hmap.
  unfold classify. rewrite Hp, Hk, String.eqb_refl, Hz, Hi, Hos. simpl.
  apply Z.eqb_neq in Hz0. rewrite Hz0.
  apply String.eqb_neq in Hi0. rewrite Hi0. simpl.
  rewrite Hmap.
  apply mapping_get_status_mapping in Hmap
    as [(_ & _ & ->) | [(_ & _ & ->) | (_ & _ & ->)]]; reflexivity.
Qed.

(** C1: handling an event changes the per-workflow counters only when
    the event reaches the counter with an after snapshot and the pair
    of its old status (none when there is no before snapshot) and its
    new status, each the last segment of the status field, is
    (none, REQUESTED), (REQUESTED, STAGED) or (STAGED, DOWNLOADED);
    for any other pair every counter of every workflow run is
    unchanged. *)
Theorem counters_change_only_on_table_transition (record : json) (st : state) :
  workflow_run_metrics (snd (handle record st)) <> workflow_run_metrics st ->
  exists new_image old_image md os,
    images_of record = Ok (Some (new_image, old_image))
    /\ parse new_image = Ok md
    /\ old_status_of parse old_image = Ok os
    /\ (truthy old_image = false -> os = None)
    /\ let ns := last_segment (retrieve_status md) in
       (os = None /\ ns = StatusCode.REQUESTED)
       \/ (os = Some StatusCode.REQUESTED /\ ns = StatusCode.STAGED)
       \/ (os = Some StatusCode.STAGED /\ ns = StatusCode.DOWNLOADED).
Proof.
  rewrite handle_record_shape. cbv zeta. simpl.
  destruct (decide_record record) as [ | | | | | w rs z a ns ] eqn:Hv; simpl;
    try congruence.
  intros _. unfold record_verdict in Hv.
  destruct (images_of record) as [[[new_image old_image] | ] | e]; try discriminate.
  apply classify_counted in Hv
    as (md & os & Hp & _ & _ & _ & _ & Hos & -> & Hmap & _).
  exists new_image, old_image, md, os.
  repeat split; try assumption; try reflexivity.
  - intros Hfalsy. unfold old_status_of in Hos. rewrite Hfalsy in Hos. congruence.
  - apply mapping_get_status_mapping in Hmap. cbv zeta. tauto.
Qed.

(** *** The accumulator *)

(** C4: a countable event with counted status [S], workflow run [W]
    and size [z] adds exactly 1 to W's [S_count] and exactly [z] to
    W's [S_size]; the other counters of W and every counter of every
    other workflow run are unchanged.  A workflow run that is not in
    the mapping yet starts from [_initial_metric], whose six counters
    are zero. *)
Theorem counted_event_adds_one_and_size
    (new_image old_image : json) (md : GlacierTransferMetadata)
    (os : option string) (S : string) (z : Z) (i : string) (st : state) :
  parse new_image = Ok md ->
  retrieval_type md = ARCHIVE_RETRIEVAL ->
  size md = Some z -> z <> 0 ->
  archive_id md = Some i -> i <> "" ->
  old_status_of parse old_image = Ok os ->
  mapping_get (os, last_segment (retrieve_status md)) status_mapping = Some S ->
  metrics_complete (workflow_run_metrics st) ->
  let W := workflow_run md in
  let before := default _initial_metric (workflow_run_metrics st !! W) in
  exists st' c s d',
    increase new_image old_image st = (Ok tt, st')
    /\ before !! (S +:+ "_count") = Some c
    /\ before !! (S +:+ "_size") = Some s
    /\ workflow_run_metrics st' !! W = Some d'
    /\ d' !! (S +:+ "_count") = Some (c + 1)
    /\ d' !! (S +:+ "_size") = Some (s + z)
    /\ (forall k, k <> S +:+ "_count" -> k <> S +:+ "_size" -> d' !! k = before !! k)
    /\ (forall w, w <> W -> workflow_run_metrics st' !! w = workflow_run_metrics st !! w)
    /\ (workflow_run_metrics st !! W = None ->
        before = _initial_metric /\ c = 0 /\ s = 0)
    /\ (forall k, _initial_metric !! k
                  = if decide (k ∈ counter_keys) then Some 0 else None).
Proof.
  intros Hp Hk Hz Hz0 Hi Hi0 Hos Hmap Hm W before. subst W before.
  assert (HS : In S statuses).
  { apply mapping_get_status_mapping in Hmap
      as [(_ & _ & ->) | [(_ & _ & ->) | (_ & _ & ->)]]; simpl; tauto. }
  destruct (status_keys S HS) as (Hkc & Hks & Hne).
  destruct (inner_complete _ (workflow_run md) _ Hm Hkc) as [c Hc].
  destruct (inner_complete _ (workflow_run md) _ Hm Hks) as [s Hs].
  rewrite increase_enact, enact_shape.
  rewrite (classify_counts _ _ md os S z i) by assumption.
  rewrite verdict_metrics_counted by assumption. simpl.
  eexists _, c, s, (bump_inner S z _).
  split; [ reflexivity | ]. simpl.
  split; [ exact Hc | ]. split; [ exact Hs | ].
  split; [ rewrite bump_lookup; case_decide; [ reflexivity | congruence ] | ].
  split; [ | split; [ | split; [ | split; [ | split ] ] ] ].
  - rewrite bump_inner_lookup by exact HS.
    case_decide; [ congruence | ]. case_decide; [ | congruence ].
    rewrite Hc. reflexivity.
  - rewrite bump_inner_lookup by exact HS.
    case_decide; [ | congruence ]. rewrite Hs. reflexivity.
  - intros k Hk1 Hk2. rewrite bump_inner_lookup by exact HS.
    repeat case_decide; congruence.
  - intros w Hw. rewrite bump_lookup. case_decide; congruence.
  - intros Hnone. rewrite Hnone in *. simpl in *.
    apply initial_metric_nonneg in Hc, Hs. auto.
  - apply initial_metric_lookup.
Qed.

(** *** Order of the events *)

(** C3: the per-workflow deltas the loop ends with are the same for a
    batch and for any permutation of it: both runs raise, or both end
    with the same mapping from workflow run to the six counters. *)
Theorem deltas_do_not_depend_on_event_order
    (rs rs' : list json) (st st' : state) :
  Permutation rs rs' ->
  workflow_run_metrics st = workflow_run_metrics st' ->
  metrics_complete (workflow_run_metrics st) ->
  deltas (for_each handle rs st) = deltas (for_each handle rs' st').
Proof.
  intros Hperm Hm Hc.
  rewrite !for_each_deltas by (try rewrite <- Hm; exact Hc).
  rewrite <- Hm. apply account_all_perm.
  - apply Permutation_map. exact Hperm.
  - apply Forall_forall. intros v Hv.
    apply list_elem_of_In, in_map_iff in Hv as (r & <- & _).
    apply (record_verdict_valid parse ARCHIVE_RETRIEVAL metadata_text archive_key).
Qed.

(** *** Counters only grow *)

Lemma handle_record_grows (record : json) (st : state) :
  (forall new_image old_image md z,
      images_of record = Ok (Some (new_image, old_image)) ->
      parse new_image = Ok md -> size md = Some z -> 0 <= z) ->
  metrics_le (workflow_run_metrics st) (workflow_run_metrics (snd (handle record st)))
  /\ (metrics_nonneg (workflow_run_metrics st) ->
      metrics_nonneg (workflow_run_metrics (snd (handle record st)))).
Proof.
  intros Hsize. rewrite handle_record_shape. cbv zeta. simpl.
  apply verdict_metrics_grow.
  intros w rs z a ns Hv. unfold record_verdict in Hv.
  destruct (images_of record) as [[[new_image old_image] | ] | e]; try discriminate.
  apply classify_counted in Hv as (md & os & Hp & _ & Hz & _).
  eapply Hsize; [ reflexivity | exact Hp | exact Hz ].
Qed.

(** C9: in a batch whose snapshots all carry a non-negative size,
    handling any of its events, from any state, loses no workflow run
    and no counter and makes no counter smaller, and keeps the
    counters non-negative when they were; the same holds for the loop
    over the whole batch, which, started on a fresh controller, ends
    with non-negative counters. *)
Theorem counters_never_decrease (rs : list json) :
  (forall r new_image old_image md z,
      In r rs ->
      images_of r = Ok (Some (new_image, old_image)) ->
      parse new_image = Ok md -> size md = Some z -> 0 <= z) ->
  (forall r st,
      In r rs ->
      metrics_le (workflow_run_metrics st) (workflow_run_metrics (snd (handle r st)))
      /\ (metrics_nonneg (workflow_run_metrics st) ->
          metrics_nonneg (workflow_run_metrics (snd (handle r st)))))
  /\ (forall st,
        metrics_le (workflow_run_metrics st)
          (workflow_run_metrics (snd (for_each handle rs st)))
        /\ (metrics_nonneg (workflow_run_metrics st) ->
            metrics_nonneg (workflow_run_metrics (snd (for_each handle rs st)))))
  /\ metrics_nonneg (workflow_run_metrics (snd (for_each handle rs (__init__ rs)))).
Proof.
  intros Hsize.
  assert (Hstep : forall r st,
             In r rs ->
             metrics_le (workflow_run_metrics st)
               (workflow_run_metrics (snd (handle r st)))
             /\ (metrics_nonneg (workflow_run_metrics st) ->
                 metrics_nonneg (workflow_run_metrics (snd (handle r st))))).
  { intros r st Hin. apply handle_record_grows.
    intros new_image old_image md z. apply Hsize. exact Hin. }
  assert (Hloop : forall l st,
             (forall r, In r l -> In r rs) ->
             metrics_le (workflow_run_metrics st)
               (workflow_run_metrics (snd (for_each handle l st)))
             /\ (metrics_nonneg (workflow_run_metrics st) ->
                 metrics_nonneg (workflow_run_metrics (snd (for_each handle l st))))).
  { induction l as [ | r l IH ]; intros st Hsub.
    - simpl. split; [ apply metrics_le_refl | tauto ].
    - rewrite for_each_cons.
      destruct (Hstep r st (Hsub r (or_introl eq_refl))) as [Hle Hnn].
      destruct (handle r st) as [[[] | e] st1]; simpl in *.
      + destruct (IH st1 (fun x Hx => Hsub x (or_intror Hx))) as [Hle' Hnn'].
        split; [ eapply metrics_le_trans; eassumption | tauto ].
      + split; assumption. }
  split; [ exact Hstep | ].
  split; [ intros st; apply Hloop; tauto | ].
  apply Hloop; [ tauto | ].
  intros w d k v H. simpl in H. rewrite lookup_empty in H. discriminate.
Qed.


(** *** Workflow runs stay *)

Lemma for_each_keeps_runs (rs : list json) (st : state) (w : string) :
  is_Some (workflow_run_metrics st !! w) ->
  is_Some (workflow_run_metrics (snd (for_each handle rs st)) !! w).
Proof.
  revert st. induction rs as [ | r rs IH ]; intros st Hw; simpl; [ exact Hw | ].
  unfold bind. rewrite handle_record_shape. cbv zeta.
  pose proof (verdict_metrics_keeps_runs (decide_record r) _ w (or_introl Hw)) as Hstep.
  destruct (fst (verdict_metrics _ _)) as [[] | e]; simpl; [ | exact Hstep ].
  apply IH. exact Hstep.
Qed.

(** A run of the loop that ends with no deltas has counted nothing,
    and the loop never touches the batch or the store. *)
Lemma no_deltas_no_counted_logs (rs : list json) (st st1 : state) :
  for_each handle rs st = (Ok tt, st1) ->
  workflow_run_metrics st1 = ∅ ->
  counted_logs st1 = counted_logs st
  /\ records st1 = records st
  /\ client_request_token st1 = client_request_token st
  /\ submitted st1 = submitted st.
Proof.
  revert st. induction rs as [ | r rs IH ]; intros st Hrun Hm.
  - simpl in Hrun. inversion Hrun; subst. tauto.
  - rewrite for_each_cons, handle_record_shape in Hrun. cbv zeta in Hrun.
    destruct (fst (verdict_metrics (decide_record r) (workflow_run_metrics st)))
      as [[] | e] eqn:Hres; [ | discriminate ].
    destruct (IH _ Hrun Hm) as (Hcl & Hrec & Htok & Hsub).
    simpl in Hcl, Hrec, Htok, Hsub.
    rewrite Hcl, Hrec, Htok, Hsub.
    destruct (decide_record r) as [ | | | | | w s z a ns ] eqn:Hv; simpl;
      rewrite ?app_nil_r; try tauto.
    exfalso.
    assert (Hw : is_Some (workflow_run_metrics st1 !! w)).
    { replace st1 with (snd (for_each handle rs
        {| counted_logs := counted_logs st ++ verdict_counted_logs (Counted w s z a ns);
           records := records st;
           workflow_run_metrics :=
             snd (verdict_metrics (Counted w s z a ns) (workflow_run_metrics st));
           client_request_token := client_request_token st;
           logged := logged st ++ verdict_logged metadata_text (Counted w s z a ns);
           submitted := submitted st |})) by (rewrite Hrun; reflexivity).
      apply for_each_keeps_runs. cbn [workflow_run_metrics].
      apply verdict_metrics_keeps_runs. right. eauto. }
    rewrite Hm, lookup_empty in Hw. destruct Hw as [? Hw]. discriminate.
Qed.


End Counter_properties.

(** ** The commit *)

Section Commit_properties.

Variable parse : json -> result GlacierTransferMetadata.
Variable ARCHIVE_RETRIEVAL : string.
Variable metadata_text : GlacierTransferMetadata -> string.
Variable archive_key : string -> string -> string.
Variable METRIC_TABLE_NAME : string.
Variable environ : string -> option string.
Variable transact_write_items :
  list (list TransactWriteItem * string) ->
  list TransactWriteItem * string -> result unit.

#[local] Abbreviation handle :=
  (handle_record parse ARCHIVE_RETRIEVAL metadata_text archive_key).
#[local] Abbreviation commit :=
  (update_metric_query METRIC_TABLE_NAME environ transact_write_items).
#[local] Abbreviation process :=
  (handle_archive_status_changed parse ARCHIVE_RETRIEVAL metadata_text archive_key
     METRIC_TABLE_NAME environ transact_write_items).

(** With no deltas an attempt submits nothing and cannot fail. *)
Lemma attempt_without_deltas (st : state) :
  workflow_run_metrics st = ∅ ->
  update_metric_query_attempt METRIC_TABLE_NAME environ transact_write_items st
  = (Ok tt,
     match records st with
     | [] => st
     | _ :: _ =>
         {| counted_logs := counted_logs st;
            records := records st;
            workflow_run_metrics := workflow_run_metrics st;
            client_request_token := client_request_token st;
            logged := logged st ++ List.map (pair INFO) (counted_logs st);
            submitted := submitted st |}
     end).
Proof.
  intros Hm. unfold update_metric_query_attempt.
  destruct (records st) as [ | r rs ] eqn:Hrec; [ reflexivity | ].
  rewrite Hm, map_to_list_empty. simpl. unfold bind, lift, ret.
  rewrite for_each_log_info, Hrec, Hm. reflexivity.
Qed.

(** C7: with nothing to commit the committer submits nothing.  For
    the empty batch the whole run returns normally and leaves the
    fresh controller as it was, token included, and that token is a
    36-character one.  For any state without deltas the body of the
    commit returns normally without calling the store, and so does
    the commit under its retry policy, on its first attempt.
    And for any batch whose loop ends without deltas the whole run
    returns normally in the state the loop ended in, with no
    submission made. *)
Theorem nothing_to_commit_submits_nothing :
  (process (__init__ []) = (Ok tt, __init__ [])
   /\ submitted (__init__ []) = []
   /\ String.length (client_request_token (__init__ [])) = 36%nat)
  /\ (forall st,
        workflow_run_metrics st = ∅ ->
        fst (update_metric_query_attempt METRIC_TABLE_NAME environ
               transact_write_items st) = Ok tt
        /\ submitted (snd (update_metric_query_attempt METRIC_TABLE_NAME environ
                             transact_write_items st)) = submitted st)
  /\ (forall st,
        workflow_run_metrics st = ∅ ->
        exists st',
          commit st = (Ok tt, st')
          /\ submitted st' = submitted st
          /\ workflow_run_metrics st' = ∅
          /\ (counted_logs st = [] -> st' = st))
  /\ (forall rs st1,
        for_each handle rs (__init__ rs) = (Ok tt, st1) ->
        workflow_run_metrics st1 = ∅ ->
        process (__init__ rs) = (Ok tt, st1)
        /\ submitted st1 = []).
Proof.
  assert (Hcommit : forall st,
             workflow_run_metrics st = ∅ ->
             exists st',
               commit st = (Ok tt, st')
               /\ submitted st' = submitted st
               /\ workflow_run_metrics st' = ∅
               /\ (counted_logs st = [] -> st' = st)).
  { intros st Hm. unfold update_metric_query. simpl.
    rewrite attempt_without_deltas by exact Hm.
    eexists. split; [ reflexivity | ].
    destruct (records st) as [ | r rs ] eqn:Hrec.
    - tauto.
    - simpl. repeat split; try assumption.
      intros Hcl. rewrite Hcl. simpl. rewrite app_nil_r.
      destruct st; simpl in *; congruence. }
  split; [ | split; [ | split ] ].
  - split; [ reflexivity | ]. split; [ reflexivity | ].
    apply length_client_request_token.
  - intros st Hm. rewrite attempt_without_deltas by exact Hm.
    split; [ reflexivity | ]. simpl. destruct (records st); reflexivity.
  - exact Hcommit.
  - intros rs st1 Hrun Hm.
    destruct (no_deltas_no_counted_logs parse ARCHIVE_RETRIEVAL metadata_text archive_key _ _ _ Hrun Hm) as (Hcl & Hrec & Htok & Hsub).
    simpl in Hcl, Hsub. split; [ | exact Hsub ].
    unfold handle_archive_status_changed, bind.
    change (records (__init__ rs)) with rs. rewrite Hrun.
    destruct (Hcommit st1 Hm) as (st' & Hc & _ & _ & Hsame).
    rewrite Hc, (Hsame Hcl). reflexivity.
Qed.

End Commit_properties.

(** ** The controller on concrete batches

    The scenarios of the design document, run on the test doubles. *)

Example last_segment_examples :
  last_segment "wf1/requested" = "requested"
  /\ last_segment "a/b/staged" = "staged"
  /\ last_segment "downloaded" = "downloaded"
  /\ last_segment "wf1/" = ""
  /\ split "/" "a//b" = ["a"; ""; "b"].
Proof. repeat split. Qed.

Example dumps_sorts_keys :
  dumps (JList [JDict [("b", JInt (-12)); ("a", JList [JBool true; JNull; JStr "x/y"])]])
  = "[{" +:+ quote +:+ "a" +:+ quote +:+ ": [true, null, " +:+ quote +:+ "x/y" +:+ quote
    +:+ "], " +:+ quote +:+ "b" +:+ quote +:+ ": -12}]".
Proof. vm_compute. reflexivity. Qed.

(** An INSERT with status REQUESTED and size 1000 counts one request of
    1000 bytes and is committed in one submission of one item. *)
Example scenario_insert_requested :
  let '(r, st) := Double.run [Double.insert_event Double.requested_A] in
  r = Ok tt
  /\ counter (workflow_run_metrics st) "wf1" "requested_count" = Some 1
  /\ counter (workflow_run_metrics st) "wf1" "requested_size" = Some 1000
  /\ counter (workflow_run_metrics st) "wf1" "staged_count" = Some 0
  /\ List.map (fun s => List.length (fst s)) (submitted st) = [1%nat]
  /\ List.map snd (submitted st) = [client_request_token st]
  /\ logged st = [ (DEBUG, "Archive:wf1|A - handled_status:requested");
                   (INFO, "Archive:wf1|A - counted_status:requested") ].
Proof. vm_compute. repeat split. Qed.

(** A MODIFY from STAGED to DOWNLOADED with size 2048. *)
Example scenario_modify_downloaded :
  let '(r, st) :=
    Double.run
      [Double.modify_event
         (Double.image "wf1" "archive-retrieval" "wf1/staged" (Some 2048) (Some "A"))
         (Double.image "wf1" "archive-retrieval" "wf1/downloaded" (Some 2048) (Some "A"))] in
  r = Ok tt
  /\ counter (workflow_run_metrics st) "wf1" "downloaded_count" = Some 1
  /\ counter (workflow_run_metrics st) "wf1" "downloaded_size" = Some 2048
  /\ counter (workflow_run_metrics st) "wf1" "requested_count" = Some 0.
Proof. vm_compute. repeat split. Qed.

(** A MODIFY from REQUESTED to DOWNLOADED skips a stage: nothing is
    counted and nothing submitted, one informational line is logged. *)
Example scenario_skipped_stage :
  let '(r, st) :=
    Double.run
      [Double.modify_event
         Double.requested_A
         (Double.image "wf1" "archive-retrieval" "wf1/downloaded" (Some 1000) (Some "A"))] in
  r = Ok tt
  /\ workflow_run_metrics st = ∅
  /\ submitted st = []
  /\ logged st = [(INFO, "Archive:wf1|A - unhandled_status:downloaded")].
Proof. vm_compute. repeat split. Qed.

(** An INSERT without a size: no deltas, one error line, no submission. *)
Example scenario_missing_size :
  let '(r, st) := Double.run [Double.insert_event Double.no_size_C] in
  r = Ok tt
  /\ workflow_run_metrics st = ∅
  /\ submitted st = []
  /\ logged st = [(ERROR, "Failed to read archive's metadata from wf1:C")].
Proof. vm_compute. repeat split. Qed.

(** A batch on two workflow runs is committed in one submission of two
    items. *)
Example scenario_two_workflow_runs :
  let '(r, st) :=
    Double.run [ Double.insert_event Double.requested_A;
                 Double.modify_event Double.requested_B Double.staged_B ] in
  r = Ok tt
  /\ counter (workflow_run_metrics st) "wf1" "requested_count" = Some 1
  /\ counter (workflow_run_metrics st) "wf2" "staged_size" = Some 2048
  /\ List.map (fun s => List.length (fst s)) (submitted st) = [2%nat].
Proof. vm_compute. repeat split. Qed.

(** A record that is not a [dict] stops the loop with the exception of
    [record.get]; the commit is not reached. *)
Example scenario_record_not_a_dict :
  let '(r, st) := Double.run [Double.insert_event Double.requested_A; JNull] in
  r = Raise AttributeError
  /\ counter (workflow_run_metrics st) "wf1" "requested_count" = Some 1
  /\ submitted st = [].
Proof. vm_compute. repeat split. Qed.

(** ** The theorems on the test doubles *)

Lemma client_request_token_shape_witness :
  String.length (_generate_client_request_token []) = 36%nat.
Proof. exact (proj1 (proj2 (client_request_token_shape []))). Defined.

Lemma counters_change_only_on_table_transition_witness :
  exists new_image old_image md os,
    images_of (Double.insert_event Double.requested_A) = Ok (Some (new_image, old_image))
    /\ Double.parse new_image = Ok md
    /\ old_status_of Double.parse old_image = Ok os
    /\ (truthy old_image = false -> os = None)
    /\ let ns := last_segment (retrieve_status md) in
       (os = None /\ ns = StatusCode.REQUESTED)
       \/ (os = Some StatusCode.REQUESTED /\ ns = StatusCode.STAGED)
       \/ (os = Some StatusCode.STAGED /\ ns = StatusCode.DOWNLOADED).
Proof.
  apply (counters_change_only_on_table_transition
           Double.parse Double.ARCHIVE_RETRIEVAL Double.metadata_text Double.archive_key
           (Double.insert_event Double.requested_A) Double.blank).
  intros H.
  apply (f_equal (fun m : gmap string (gmap string Z) =>
                    match m !! "wf1" with Some _ => true | None => false end)) in H.
  vm_compute in H. discriminate.
Defined.

Lemma deltas_do_not_depend_on_event_order_witness :
  deltas (for_each
            (handle_record Double.parse Double.ARCHIVE_RETRIEVAL Double.metadata_text
               Double.archive_key)
            [ Double.insert_event Double.requested_A;
              Double.modify_event Double.requested_B Double.staged_B ]
            Double.blank)
  = deltas (for_each
              (handle_record Double.parse Double.ARCHIVE_RETRIEVAL Double.metadata_text
                 Double.archive_key)
              [ Double.modify_event Double.requested_B Double.staged_B;
                Double.insert_event Double.requested_A ]
              Double.blank).
Proof.
  apply deltas_do_not_depend_on_event_order.
  - apply perm_swap.
  - reflexivity.
  - simpl. intros w d H. rewrite lookup_empty in H. discriminate.
Defined.

Lemma counted_event_adds_one_and_size_witness :
  exists st' d',
    increase_archive_status_metric_counter Double.parse Double.ARCHIVE_RETRIEVAL
      Double.metadata_text Double.archive_key Double.requested_A JNull Double.blank
    = (Ok tt, st')
    /\ workflow_run_metrics st' !! "wf1" = Some d'
    /\ d' !! "requested_count" = Some 1
    /\ d' !! "requested_size" = Some 1000.
Proof.
  destruct (counted_event_adds_one_and_size
              Double.parse Double.ARCHIVE_RETRIEVAL Double.metadata_text Double.archive_key
              Double.requested_A JNull
              {| workflow_run := "wf1"; retrieval_type := "archive-retrieval";
                 size := Some 1000; archive_id := Some "A";
                 retrieve_status := "wf1/requested" |}
              None "requested" 1000 "A" Double.blank)
    as (st' & c & s & d' & Hrun & _ & _ & Hd' & Hc & Hs & _ & _ & Hinit & _).
  - reflexivity.
  - reflexivity.
  - reflexivity.
  - lia.
  - reflexivity.
  - discriminate.
  - reflexivity.
  - reflexivity.
  - simpl. intros w d H. rewrite lookup_empty in H. discriminate.
  - destruct (Hinit eq_refl) as (_ & -> & ->).
    exists st', d'. repeat split; assumption.
Defined.

Lemma malformed_event_leaves_batch_deltas_witness :
  handle_record Double.parse Double.ARCHIVE_RETRIEVAL Double.metadata_text
    Double.archive_key (Double.insert_event Double.no_size_C) Double.blank
  = log ERROR "Failed to read archive's metadata from wf1:C" Double.blank
  /\ deltas (for_each
               (handle_record Double.parse Double.ARCHIVE_RETRIEVAL Double.metadata_text
                  Double.archive_key)
               ([Double.insert_event Double.requested_A]
                ++ Double.insert_event Double.no_size_C
                   :: [Double.modify_event Double.requested_B Double.staged_B])
               Double.blank)
     = deltas (for_each
                 (handle_record Double.parse Double.ARCHIVE_RETRIEVAL Double.metadata_text
                    Double.archive_key)
                 ([Double.insert_event Double.requested_A]
                  ++ [Double.modify_event Double.requested_B Double.staged_B])
                 Double.blank).
Proof.
  destruct (malformed_event_leaves_batch_deltas
              Double.parse Double.ARCHIVE_RETRIEVAL Double.metadata_text Double.archive_key
              (Double.insert_event Double.no_size_C) Double.no_size_C JNull
              {| workflow_run := "wf1"; retrieval_type := "archive-retrieval";
                 size := None; archive_id := Some "C";
                 retrieve_status := "wf1/requested" |}
              [Double.insert_event Double.requested_A]
              [Double.modify_event Double.requested_B Double.staged_B]
              Double.blank)
    as (Hstep & Hdeltas & _).
  - reflexivity.
  - reflexivity.
  - reflexivity.
  - left. reflexivity.
  - split; [ apply Hstep | exact Hdeltas ].
Defined.

Lemma non_archive_retrieval_contributes_nothing_witness :
  increase_archive_status_metric_counter Double.parse Double.ARCHIVE_RETRIEVAL
    Double.metadata_text Double.archive_key Double.inventory_E JNull Double.blank
  = (Ok tt, Double.blank).
Proof.
  apply (non_archive_retrieval_contributes_nothing
           Double.parse Double.ARCHIVE_RETRIEVAL Double.metadata_text Double.archive_key
           Double.inventory_E JNull
           {| workflow_run := "wf1"; retrieval_type := "inventory-retrieval";
              size := Some 512; archive_id := Some "E";
              retrieve_status := "wf1/requested" |}).
  - reflexivity.
  - simpl. discriminate.
Defined.

Lemma zero_size_or_empty_id_is_malformed_witness :
  increase_archive_status_metric_counter Double.parse Double.ARCHIVE_RETRIEVAL
    Double.metadata_text Double.archive_key Double.zero_size_D JNull Double.blank
  = (Ok tt,
     {| counted_logs := []; records := []; workflow_run_metrics := ∅;
        client_request_token := "";
        logged := [(ERROR, "Failed to read archive's metadata from wf1:D")];
        submitted := [] |}).
Proof.
  apply (zero_size_or_empty_id_is_malformed
           Double.parse Double.ARCHIVE_RETRIEVAL Double.metadata_text Double.archive_key
           Double.zero_size_D JNull
           {| workflow_run := "wf1"; retrieval_type := "archive-retrieval";
              size := Some 0; archive_id := Some "D";
              retrieve_status := "wf1/requested" |}
           Double.blank).
  - reflexivity.
  - reflexivity.
  - left. reflexivity.
Defined.

Lemma counters_never_decrease_witness :
  metrics_nonneg
    (workflow_run_metrics
       (snd (for_each
               (handle_record Double.parse Double.ARCHIVE_RETRIEVAL Double.metadata_text
                  Double.archive_key)
               [Double.insert_event Double.requested_A]
               (__init__ [Double.insert_event Double.requested_A])))).
Proof.
  apply (counters_never_decrease
           Double.parse Double.ARCHIVE_RETRIEVAL Double.metadata_text Double.archive_key
           [Double.insert_event Double.requested_A]).
  intros r new_image old_image md z [<- | []] Himg Hp Hz.
  vm_compute in Himg. inversion Himg; subst; clear Himg.
  vm_compute in Hp. inversion Hp; subst; clear Hp.
  simpl in Hz. inversion Hz. lia.
Defined.

Lemma nothing_to_commit_submits_nothing_witness :
  handle_archive_status_changed Double.parse Double.ARCHIVE_RETRIEVAL Double.metadata_text
    Double.archive_key Double.METRIC_TABLE_NAME Double.environ Double.transact_write_items
    (__init__ [Double.insert_event Double.no_size_C])
  = (Ok tt,
     {| counted_logs := [];
        records := [Double.insert_event Double.no_size_C];
        workflow_run_metrics := ∅;
        client_request_token :=
          _generate_client_request_token [Double.insert_event Double.no_size_C];
        logged := [(ERROR, "Failed to read archive's metadata from wf1:C")];
        submitted := [] |}).
Proof.
  apply (proj2 (proj2 (proj2 (nothing_to_commit_submits_nothing
                         Double.parse Double.ARCHIVE_RETRIEVAL Double.metadata_text
                         Double.archive_key Double.METRIC_TABLE_NAME Double.environ
                         Double.transact_write_items)))).
  - reflexivity.
  - reflexivity.
Defined.

(** * Further properties of the controller *)

(** ** The loop *)

Section Loop_properties.

Variable parse : json -> result GlacierTransferMetadata.
Variable ARCHIVE_RETRIEVAL : string.
Variable metadata_text : GlacierTransferMetadata -> string.
Variable archive_key : string -> string -> string.

#[local] Abbreviation increase :=
  (increase_archive_status_metric_counter parse ARCHIVE_RETRIEVAL metadata_text archive_key).
#[local] Abbreviation handle :=
  (handle_record parse ARCHIVE_RETRIEVAL metadata_text archive_key).
#[local] Abbreviation decide_record := (record_verdict parse ARCHIVE_RETRIEVAL archive_key).

#[local] Arguments mapping_get : simpl never.

Lemma for_each_frame (rs : list json) (st : state) :
  submitted (snd (for_each handle rs st)) = submitted st
  /\ records (snd (for_each handle rs st)) = records st
  /\ client_request_token (snd (for_each handle rs st)) = client_request_token st.
Proof.
  revert st. induction rs as [ | r rs IH ]; intros st; [ simpl; tauto | ].
  rewrite for_each_cons, handle_record_shape. cbv zeta.
  destruct (fst (verdict_metrics (decide_record r) (workflow_run_metrics st)))
    as [[] | e]; [ | simpl; tauto ].
  match goal with |- context [for_each _ rs ?s] => specialize (IH s) end.
  simpl in IH. exact IH.
Qed.

(** X1: the loop over a batch, however it ends, never calls the store
    and never changes the batch or the token of the controller; it
    only appends to the log and to the queue of audit lines. *)
Theorem loop_never_submits (rs : list json) (st : state) :
  let st' := snd (for_each handle rs st) in
  submitted st' = submitted st
  /\ records st' = records st
  /\ client_request_token st' = client_request_token st
  /\ (exists more, logged st' = logged st ++ more)
  /\ (exists more, counted_logs st' = counted_logs st ++ more).
Proof.
  revert st. induction rs as [ | r rs IH ]; intros st; cbv zeta.
  - simpl. repeat split; exists []; rewrite app_nil_r; reflexivity.
  - rewrite for_each_cons, handle_record_shape. cbv zeta.
    destruct (fst (verdict_metrics (decide_record r) (workflow_run_metrics st)))
      as [[] | e].
    + match goal with |- context [for_each _ rs ?s] => specialize (IH s) end.
      cbv zeta in IH. simpl in IH.
      destruct IH as (Hs & Hr & Ht & [l Hl] & [c Hc]).
      repeat split; try assumption.
      * eexists. rewrite Hl, <- app_assoc. reflexivity.
      * eexists. rewrite Hc, <- app_assoc. reflexivity.
    + simpl. repeat split; eexists; reflexivity.
Qed.

Lemma handle_record_raises (record : json) (e : exn) (st : state) :
  images_of record = Raise e -> handle record st = (Raise e, st).
Proof.
  intros H. rewrite handle_record_shape. cbv zeta.
  unfold record_verdict. rewrite H. simpl. rewrite !app_nil_r.
  destruct st; reflexivity.
Qed.

(** X2: an INSERT or MODIFY event of the table's stream that lacks
    ["dynamodb"], or ["NewImage"] under it, raises [KeyError] for that
    key; a MODIFY event that lacks ["OldImage"] raises [KeyError] for
    it before the counter is called, whatever its new image.  The
    state is left as it was. *)
Theorem missing_image_raises_key_error (d : list (string * json)) (st : state) :
  get_equals d "eventSource" "aws:dynamodb" = true ->
  get_equals d "eventName" "INSERT" = true
  \/ get_equals d "eventName" "MODIFY" = true ->
  (dict_get "dynamodb" d = None ->
   handle (JDict d) st = (Raise (KeyError "dynamodb"), st))
  /\ (forall dyn,
        dict_get "dynamodb" d = Some (JDict dyn) ->
        dict_get "NewImage" dyn = None ->
        handle (JDict d) st = (Raise (KeyError "NewImage"), st))
  /\ (forall dyn new_image,
        dict_get "dynamodb" d = Some (JDict dyn) ->
        dict_get "NewImage" dyn = Some new_image ->
        get_equals d "eventName" "INSERT" = false ->
        dict_get "OldImage" dyn = None ->
        handle (JDict d) st = (Raise (KeyError "OldImage"), st)).
Proof.
  intros Hsrc Hname. split; [ | split ].
  - intros Hd. apply handle_record_raises. unfold images_of, getitem.
    rewrite Hsrc, Hd. destruct Hname as [-> | ->]; [ reflexivity | ].
    destruct (get_equals d "eventName" "INSERT"); reflexivity.
  - intros dyn Hd Hn. apply handle_record_raises. unfold images_of, getitem.
    rewrite Hsrc, Hd, Hn. destruct Hname as [-> | ->]; [ reflexivity | ].
    destruct (get_equals d "eventName" "INSERT"); reflexivity.
  - intros dyn new_image Hd Hn Hins Ho. apply handle_record_raises.
    unfold images_of, getitem. rewrite Hsrc, Hd, Hn, Hins, Ho.
    destruct Hname as [Hname | ->]; [ congruence | reflexivity ].
Qed.

(** X3: a MODIFY event whose old image is empty (or otherwise false
    as a Python value) is handled as the INSERT event of the same new
    image: its old status is none and the old image is not parsed. *)
Theorem falsy_old_image_is_no_old_image
    (modify insert new_image old_image : json) (st : state) :
  images_of modify = Ok (Some (new_image, old_image)) ->
  images_of insert = Ok (Some (new_image, JNull)) ->
  truthy old_image = false ->
  handle modify st = handle insert st.
Proof.
  intros Hm Hi Hfalsy.
  rewrite !handle_record_enact. unfold record_verdict. rewrite Hm, Hi.
  unfold classify, old_status_of. rewrite Hfalsy. reflexivity.
Qed.

End Loop_properties.

(** ** What the deltas count *)

Lemma counter_or_zero_bump (w0 rs : string) (z : Z) (m : gmap string (gmap string Z))
    (w s : string) :
  In rs statuses -> In s statuses ->
  counter_or_zero (bump w0 rs z m) w (s +:+ "_count")
  = counter_or_zero m w (s +:+ "_count")
    + (if String.eqb w w0 && String.eqb s rs then 1 else 0)
  /\ counter_or_zero (bump w0 rs z m) w (s +:+ "_size")
     = counter_or_zero m w (s +:+ "_size")
       + (if String.eqb w w0 && String.eqb s rs then z else 0).
Proof.
  intros Hrs Hs. unfold counter_or_zero. rewrite bump_lookup.
  destruct (String.eqb_spec w w0) as [-> | Hne].
  - case_decide; [ | congruence ]. simpl (default _initial_metric (Some _)).
    rewrite !bump_inner_lookup by exact Hrs.
    pose proof (keys_apart s rs Hs Hrs) as Hcs.
    pose proof (keys_apart rs s Hrs Hs) as Hsc.
    destruct (String.eqb_spec s rs) as [-> | Hsr]; simpl andb; cbv iota.
    + destruct (status_keys rs Hrs) as (_ & _ & Hd).
      repeat case_decide; try congruence; simpl; split; reflexivity.
    + assert (Hc : s +:+ "_count" <> rs +:+ "_count").
      { revert Hsr. unfold statuses in Hrs, Hs. simpl in Hrs, Hs.
        destruct Hrs as [<- | [<- | [<- | []]]], Hs as [<- | [<- | [<- | []]]];
          intros Hsr; try congruence; discriminate. }
      assert (Hz : s +:+ "_size" <> rs +:+ "_size").
      { revert Hsr. unfold statuses in Hrs, Hs. simpl in Hrs, Hs.
        destruct Hrs as [<- | [<- | [<- | []]]], Hs as [<- | [<- | [<- | []]]];
          intros Hsr; try congruence; discriminate. }
      repeat case_decide; try congruence; split; lia.
  - case_decide; [ congruence | ]. simpl. split; lia.
Qed.

Lemma counted_events_cons (w s : string) (v : verdict) (vs : list verdict) :
  counted_events w s (v :: vs)
  = (if counts_for w s v then 1 else 0) + counted_events w s vs.
Proof.
  unfold counted_events. simpl List.filter.
  destruct (counts_for w s v); [ rewrite length_cons, Nat2Z.inj_succ | ]; lia.
Qed.

Lemma counted_bytes_cons (w s : string) (v : verdict) (vs : list verdict) :
  counted_bytes w s (v :: vs)
  = (if counts_for w s v then verdict_size v else 0) + counted_bytes w s vs.
Proof.
  unfold counted_bytes. simpl. destruct (counts_for w s v); simpl; lia.
Qed.

(** Each counter moves by the number, or by the bytes, of the events
    counted for its workflow run and status. *)
Lemma account_all_counts (vs : list verdict) :
  Forall verdict_valid vs ->
  forall m m', account_all vs m = Some m' ->
  forall w s, In s statuses ->
    counter_or_zero m' w (s +:+ "_count")
    = counter_or_zero m w (s +:+ "_count") + counted_events w s vs
    /\ counter_or_zero m' w (s +:+ "_size")
       = counter_or_zero m w (s +:+ "_size") + counted_bytes w s vs.
Proof.
  induction 1 as [ | v vs Hv Hvs IH ]; intros m m' Hacc w s Hs.
  - simpl in Hacc. inversion Hacc; subst.
    unfold counted_events, counted_bytes. simpl. split; lia.
  - simpl in Hacc. rewrite counted_events_cons, counted_bytes_cons.
    destruct v as [e | | | md | a ns | w0 rs z a ns]; simpl in Hacc;
      try discriminate;
      try (destruct (IH _ _ Hacc w s Hs) as [Hc Hz]; simpl; split; lia).
    simpl in Hv.
    destruct (IH _ _ Hacc w s Hs) as [Hc Hz].
    destruct (counter_or_zero_bump w0 rs z m w s Hv Hs) as [Hbc Hbz].
    rewrite Hc, Hz, Hbc, Hbz. simpl. split; lia.
Qed.

Lemma account_all_dom (vs : list verdict) :
  forall m m', account_all vs m = Some m' ->
  forall w, is_Some (m' !! w) <-> is_Some (m !! w) \/ existsb (touches w) vs = true.
Proof.
  induction vs as [ | v vs IH ]; intros m m' Hacc w.
  - simpl in Hacc. inversion Hacc; subst. simpl. intuition discriminate.
  - simpl in Hacc.
    destruct v as [e | | | md | a ns | w0 rs z a ns]; simpl in Hacc;
      try discriminate; try (rewrite (IH _ _ Hacc w); simpl; tauto).
    rewrite (IH _ _ Hacc w). simpl. rewrite bump_lookup.
    destruct (String.eqb_spec w w0) as [-> | Hne]; simpl.
    + case_decide; [ | congruence ]. split; intros _; eauto.
    + case_decide; [ congruence | ]. tauto.
Qed.

Lemma account_all_complete (vs : list verdict) :
  Forall verdict_valid vs ->
  forall m m', metrics_complete m -> account_all vs m = Some m' -> metrics_complete m'.
Proof.
  induction 1 as [ | v vs Hv Hvs IH ]; intros m m' Hm Hacc.
  - simpl in Hacc. inversion Hacc; subst. exact Hm.
  - simpl in Hacc.
    pose proof (verdict_metrics_account v m Hv Hm) as Hstep.
    destruct (account v m) as [m1 | ]; [ | discriminate ].
    eapply IH; [ apply Hstep | exact Hacc ].
Qed.

Lemma counter_of_complete (m : gmap string (gmap string Z)) (w k : string) :
  metrics_complete m -> is_Some (m !! w) -> In k counter_keys ->
  counter m w k = Some (counter_or_zero m w k).
Proof.
  intros Hm [d Hd] Hk. unfold counter, counter_or_zero. rewrite Hd. simpl.
  destruct (Hm w d Hd k Hk) as [v Hv]. rewrite Hv. reflexivity.
Qed.

Lemma counter_or_zero_empty (w k : string) : counter_or_zero ∅ w k = 0.
Proof.
  unfold counter_or_zero. rewrite lookup_empty. simpl.
  destruct (_initial_metric !! k) as [v | ] eqn:Hk; simpl; [ | reflexivity ].
  apply initial_metric_nonneg in Hk. exact Hk.
Qed.

Lemma account_all_Some (vs : list verdict) (m m0 : gmap string (gmap string Z)) :
  is_Some (account_all vs m) -> is_Some (account_all vs m0).
Proof.
  revert m m0. induction vs as [ | v vs IH ]; intros m m0 H; [ simpl; eauto | ].
  simpl in *. destruct v; simpl in *;
    try (eapply IH; exact H); destruct H; discriminate.
Qed.

Lemma counted_events_app (w s : string) (vs vs' : list verdict) :
  counted_events w s (vs ++ vs') = counted_events w s vs + counted_events w s vs'.
Proof.
  unfold counted_events. rewrite List.filter_app, length_app. lia.
Qed.

Lemma counted_bytes_app (w s : string) (vs vs' : list verdict) :
  counted_bytes w s (vs ++ vs') = counted_bytes w s vs + counted_bytes w s vs'.
Proof.
  unfold counted_bytes. rewrite List.filter_app, List.map_app.
  induction (List.map verdict_size (List.filter (counts_for w s) vs)) as [ | x l IH ];
    simpl; lia.
Qed.

Section Accumulator_properties.

Variable parse : json -> result GlacierTransferMetadata.
Variable ARCHIVE_RETRIEVAL : string.
Variable metadata_text : GlacierTransferMetadata -> string.
Variable archive_key : string -> string -> string.

#[local] Abbreviation handle :=
  (handle_record parse ARCHIVE_RETRIEVAL metadata_text archive_key).
#[local] Abbreviation decide_record := (record_verdict parse ARCHIVE_RETRIEVAL archive_key).

(** X4: when the loop over a batch ends normally on a fresh
    controller, a workflow run is in the deltas exactly when some
    event of the batch was counted for it, and then, for each of the
    three statuses, its count is the number of events counted for
    that run and status and its size is the sum of their sizes. *)
Theorem deltas_count_the_counted_events (rs : list json) (st : state) :
  for_each handle rs (__init__ rs) = (Ok tt, st) ->
  forall w s, In s statuses ->
    let vs := List.map decide_record rs in
    if existsb (touches w) vs
    then counter (workflow_run_metrics st) w (s +:+ "_count")
         = Some (counted_events w s vs)
         /\ counter (workflow_run_metrics st) w (s +:+ "_size")
            = Some (counted_bytes w s vs)
    else workflow_run_metrics st !! w = None.
Proof.
  intros Hrun w s Hs vs.
  pose proof (for_each_deltas parse ARCHIVE_RETRIEVAL metadata_text archive_key
                rs (__init__ rs) metrics_complete_empty) as Hd.
  rewrite Hrun in Hd. unfold deltas in Hd. simpl in Hd. symmetry in Hd.
  fold vs in Hd.
  assert (Hvalid : Forall verdict_valid vs).
  { apply Forall_forall. intros v Hv.
    apply list_elem_of_In, in_map_iff in Hv as (r & <- & _).
    apply (record_verdict_valid parse ARCHIVE_RETRIEVAL metadata_text archive_key). }
  pose proof (account_all_dom vs _ _ Hd w) as Hdom.
  rewrite lookup_empty in Hdom.
  destruct (existsb (touches w) vs) eqn:Ht.
  - assert (Hw : is_Some (workflow_run_metrics st !! w)) by (apply Hdom; auto).
    pose proof (account_all_complete vs Hvalid _ _ metrics_complete_empty Hd) as Hc.
    destruct (account_all_counts vs Hvalid _ _ Hd w s Hs) as [Hcnt Hsz].
    rewrite !counter_or_zero_empty in Hcnt, Hsz.
    destruct (status_keys s Hs) as (Hkc & Hks & _).
    rewrite !counter_of_complete by assumption.
    rewrite Hcnt, Hsz. split; reflexivity.
  - destruct (workflow_run_metrics st !! w) eqn:Hw; [ | reflexivity ].
    exfalso. assert (H : is_Some (Some g)) by eauto.
    apply Hdom in H as [[? H] | H]; discriminate.
Qed.

(** X5: when the loop ends normally, the queue of audit lines has
    grown by one line per counted event, in the order of the batch,
    and by nothing else. *)
Theorem one_audit_line_per_counted_event (rs : list json) (st st' : state) :
  for_each handle rs st = (Ok tt, st') ->
  counted_logs st'
  = counted_logs st ++ flat_map verdict_counted_logs (List.map decide_record rs)
  /\ List.length (counted_logs st')
     = (List.length (counted_logs st)
        + List.length
            (List.filter (fun v => match v with Counted _ _ _ _ _ => true | _ => false end)
               (List.map decide_record rs)))%nat.
Proof.
  revert st. induction rs as [ | r rs IH ]; intros st Hrun.
  - simpl in Hrun. inversion Hrun; subst. simpl. rewrite app_nil_r. split; [ reflexivity | lia ].
  - rewrite for_each_cons, handle_record_shape in Hrun. cbv zeta in Hrun.
    destruct (fst (verdict_metrics (decide_record r) (workflow_run_metrics st)))
      as [[] | e]; [ | discriminate ].
    destruct (IH _ Hrun) as [Hlogs Hlen]. simpl in Hlogs, Hlen.
    split.
    + rewrite Hlogs. simpl. rewrite <- app_assoc. reflexivity.
    + rewrite Hlen. simpl. rewrite length_app.
      destruct (decide_record r); simpl; lia.
Qed.

Lemma deltas_of_fresh_run (rs : list json) (st : state) :
  for_each handle rs (__init__ rs) = (Ok tt, st) ->
  account_all (List.map decide_record rs) ∅ = Some (workflow_run_metrics st).
Proof.
  intros Hrun.
  pose proof (for_each_deltas parse ARCHIVE_RETRIEVAL metadata_text archive_key
                rs (__init__ rs) metrics_complete_empty) as Hd.
  rewrite Hrun in Hd. unfold deltas in Hd. simpl in Hd. symmetry. exact Hd.
Qed.

Lemma verdicts_valid (rs : list json) :
  Forall verdict_valid (List.map decide_record rs).
Proof.
  apply Forall_forall. intros v Hv.
  apply list_elem_of_In, in_map_iff in Hv as (r & <- & _).
  apply (record_verdict_valid parse ARCHIVE_RETRIEVAL metadata_text archive_key).
Qed.

(** X6: deltas add up over a split batch.  When the loop ends
    normally on each of two batches, each on its own fresh
    controller, it ends normally on their concatenation, and there
    every count and every size is the sum of the two, a workflow run
    that is absent from a side counting as zero. *)
Theorem deltas_of_a_split_batch_add_up (rs1 rs2 : list json) (st1 st2 : state) :
  for_each handle rs1 (__init__ rs1) = (Ok tt, st1) ->
  for_each handle rs2 (__init__ rs2) = (Ok tt, st2) ->
  exists st,
    for_each handle (rs1 ++ rs2) (__init__ (rs1 ++ rs2)) = (Ok tt, st)
    /\ forall w s, In s statuses ->
         counter_or_zero (workflow_run_metrics st) w (s +:+ "_count")
         = counter_or_zero (workflow_run_metrics st1) w (s +:+ "_count")
           + counter_or_zero (workflow_run_metrics st2) w (s +:+ "_count")
         /\ counter_or_zero (workflow_run_metrics st) w (s +:+ "_size")
            = counter_or_zero (workflow_run_metrics st1) w (s +:+ "_size")
              + counter_or_zero (workflow_run_metrics st2) w (s +:+ "_size").
Proof.
  intros Hrun1 Hrun2.
  pose proof (deltas_of_fresh_run rs1 st1 Hrun1) as Hd1.
  pose proof (deltas_of_fresh_run rs2 st2 Hrun2) as Hd2.
  assert (Hsome : is_Some (account_all (List.map decide_record (rs1 ++ rs2)) ∅)).
  { rewrite List.map_app, account_all_app, Hd1.
    apply (account_all_Some _ ∅). rewrite Hd2. eauto. }
  destruct Hsome as [m Hm].
  pose proof (for_each_deltas parse ARCHIVE_RETRIEVAL metadata_text archive_key
                (rs1 ++ rs2) (__init__ (rs1 ++ rs2)) metrics_complete_empty) as Hd.
  change (workflow_run_metrics (__init__ (rs1 ++ rs2)))
    with (∅ : gmap string (gmap string Z)) in Hd.
  rewrite Hm in Hd. unfold deltas in Hd.
  destruct (for_each handle (rs1 ++ rs2) (__init__ (rs1 ++ rs2))) as [[[] | e] st];
    simpl in Hd; [ | discriminate ].
  inversion Hd; subst m; clear Hd.
  exists st. split; [ reflexivity | ]. intros w s Hs.
  destruct (account_all_counts _ (verdicts_valid (rs1 ++ rs2)) _ _ Hm w s Hs) as [Hc Hz].
  destruct (account_all_counts _ (verdicts_valid rs1) _ _ Hd1 w s Hs) as [Hc1 Hz1].
  destruct (account_all_counts _ (verdicts_valid rs2) _ _ Hd2 w s Hs) as [Hc2 Hz2].
  rewrite !counter_or_zero_empty in *.
  rewrite List.map_app, counted_events_app in Hc.
  rewrite List.map_app, counted_bytes_app in Hz.
  split; lia.
Qed.

End Accumulator_properties.

(** ** The transaction *)

Lemma int_of_str_of_Z (n : Z) : int_of_str (str_of_Z n) = Some n.
Proof.
  unfold int_of_str, str_of_Z.
  destruct n as [ | p | p ]; [ reflexivity | | ].
  - rewrite NilZero.isi.
    + simpl. f_equal. apply (DecimalZ.of_to (Z.pos p)).
    + simpl. intros H. inversion H as [H']. apply (DecimalPos.Unsigned.to_uint_nonnil p H').
    + discriminate.
  - rewrite NilZero.isi.
    + simpl. f_equal. apply (DecimalZ.of_to (Z.neg p)).
    + discriminate.
    + simpl. intros H. inversion H as [H']. apply (DecimalPos.Unsigned.to_uint_nonnil p H').
Qed.

Lemma collect_attributes_step (d : gmap string Z) (s t : string)
    (rest : list (string * string)) (values : list (string * string))
    (updates : list string) (n : Z) :
  d !! (s +:+ "_" +:+ t) = Some n ->
  collect_attributes d ((s, t) :: rest) values updates
  = collect_attributes d rest
      (dict_set (":update_" +:+ s +:+ "_" +:+ t) (str_of_Z n) values)
      (updates ++ [t +:+ "_" +:+ s +:+ " " +:+ (":update_" +:+ s +:+ "_" +:+ t)]).
Proof. intros H. cbn [collect_attributes]. rewrite H. reflexivity. Qed.

Lemma collect_attributes_complete (d : gmap string Z) (c1 c2 c3 c4 c5 c6 : Z) :
  d !! "requested_count" = Some c1 -> d !! "requested_size" = Some c2 ->
  d !! "staged_count" = Some c3 -> d !! "staged_size" = Some c4 ->
  d !! "downloaded_count" = Some c5 -> d !! "downloaded_size" = Some c6 ->
  collect_attributes d attribute_pairs [] []
  = Ok ([ (":update_requested_count", str_of_Z c1);
          (":update_requested_size", str_of_Z c2);
          (":update_staged_count", str_of_Z c3);
          (":update_staged_size", str_of_Z c4);
          (":update_downloaded_count", str_of_Z c5);
          (":update_downloaded_size", str_of_Z c6) ],
        [ "count_requested :update_requested_count";
          "size_requested :update_requested_size";
          "count_staged :update_staged_count";
          "size_staged :update_staged_size";
          "count_downloaded :update_downloaded_count";
          "size_downloaded :update_downloaded_size" ]).
Proof.
  intros H1 H2 H3 H4 H5 H6. unfold attribute_pairs.
  erewrite collect_attributes_step by exact H1.
  erewrite collect_attributes_step by exact H2.
  erewrite collect_attributes_step by exact H3.
  erewrite collect_attributes_step by exact H4.
  erewrite collect_attributes_step by exact H5.
  erewrite collect_attributes_step by exact H6.
  reflexivity.
Qed.

Lemma complete_delta_counters (d : gmap string Z) :
  (forall k, In k counter_keys -> is_Some (d !! k)) ->
  exists c1 c2 c3 c4 c5 c6,
    d !! "requested_count" = Some c1 /\ d !! "requested_size" = Some c2
    /\ d !! "staged_count" = Some c3 /\ d !! "staged_size" = Some c4
    /\ d !! "downloaded_count" = Some c5 /\ d !! "downloaded_size" = Some c6.
Proof.
  intros Hd.
  destruct (Hd "requested_count") as [c1 H1]; [ simpl; tauto | ].
  destruct (Hd "requested_size") as [c2 H2]; [ simpl; tauto | ].
  destruct (Hd "staged_count") as [c3 H3]; [ simpl; tauto | ].
  destruct (Hd "staged_size") as [c4 H4]; [ simpl; tauto | ].
  destruct (Hd "downloaded_count") as [c5 H5]; [ simpl; tauto | ].
  destruct (Hd "downloaded_size") as [c6 H6]; [ simpl; tauto | ].
  exists c1, c2, c3, c4, c5, c6. repeat split; assumption.
Qed.

Lemma collect_attributes_Ok (d : gmap string Z) (r : list (string * string) * list string) :
  collect_attributes d attribute_pairs [] [] = Ok r ->
  exists c1 c2 c3 c4 c5 c6,
    d !! "requested_count" = Some c1 /\ d !! "requested_size" = Some c2
    /\ d !! "staged_count" = Some c3 /\ d !! "staged_size" = Some c4
    /\ d !! "downloaded_count" = Some c5 /\ d !! "downloaded_size" = Some c6.
Proof.
  unfold attribute_pairs. intros H.
  assert (Hkey : forall s t rest values updates,
             collect_attributes d ((s, t) :: rest) values updates = Ok r ->
             exists n, d !! (s +:+ "_" +:+ t) = Some n
                       /\ collect_attributes d rest
                            (dict_set (":update_" +:+ s +:+ "_" +:+ t) (str_of_Z n) values)
                            (updates ++ [t +:+ "_" +:+ s +:+ " "
                                         +:+ (":update_" +:+ s +:+ "_" +:+ t)])
                          = Ok r).
  { intros s t rest values updates Hc. cbn [collect_attributes] in Hc.
    destruct (d !! (s +:+ "_" +:+ t)) as [n | ]; [ eauto | discriminate ]. }
  apply Hkey in H as (c1 & H1 & H).
  apply Hkey in H as (c2 & H2 & H).
  apply Hkey in H as (c3 & H3 & H).
  apply Hkey in H as (c4 & H4 & H).
  apply Hkey in H as (c5 & H5 & H).
  apply Hkey in H as (c6 & H6 & H).
  exists c1, c2, c3, c4, c5, c6. repeat split; assumption.
Qed.

Section Transaction_properties.

Variable METRIC_TABLE_NAME : string.
Variable environ : string -> option string.

#[local] Abbreviation item_of := (transact_item METRIC_TABLE_NAME environ).
#[local] Abbreviation items_of := (transact_items_of METRIC_TABLE_NAME environ).

(** X7: for a workflow run whose delta has its six counters, with
    the table name in the environment, the item built is the update
    of the row keyed by the workflow run: the fixed [ADD] expression
    over the six attributes, and the decimal text of each counter
    under its placeholder. *)
Theorem transact_item_of_complete_delta
    (workflow_run table : string) (d : gmap string Z) (c1 c2 c3 c4 c5 c6 : Z) :
  environ METRIC_TABLE_NAME = Some table ->
  d !! "requested_count" = Some c1 -> d !! "requested_size" = Some c2 ->
  d !! "staged_count" = Some c3 -> d !! "staged_size" = Some c4 ->
  d !! "downloaded_count" = Some c5 -> d !! "downloaded_size" = Some c6 ->
  item_of workflow_run d
  = Ok {| TableName := table;
          Key_pk := workflow_run;
          UpdateExpression :=
            "ADD count_requested :update_requested_count, "
            +:+ "size_requested :update_requested_size, "
            +:+ "count_staged :update_staged_count, "
            +:+ "size_staged :update_staged_size, "
            +:+ "count_downloaded :update_downloaded_count, "
            +:+ "size_downloaded :update_downloaded_size";
          ExpressionAttributeValues :=
            [ (":update_requested_count", str_of_Z c1);
              (":update_requested_size", str_of_Z c2);
              (":update_staged_count", str_of_Z c3);
              (":update_staged_size", str_of_Z c4);
              (":update_downloaded_count", str_of_Z c5);
              (":update_downloaded_size", str_of_Z c6) ] |}.
Proof.
  intros Henv H1 H2 H3 H4 H5 H6. unfold transact_item.
  rewrite (collect_attributes_complete d c1 c2 c3 c4 c5 c6) by assumption.
  rewrite Henv. reflexivity.
Qed.

(** X8: whenever an item is built for a delta, the delta has all six
    counters, and for each status and each of [count] and [size] the
    value sent under the placeholder [:update_<status>_<type>] reads
    back, as a decimal integer, as the counter [<status>_<type>]. *)
Theorem transact_item_values_read_back
    (workflow_run : string) (d : gmap string Z) (item : TransactWriteItem) :
  item_of workflow_run d = Ok item ->
  Key_pk item = workflow_run
  /\ environ METRIC_TABLE_NAME = Some (TableName item)
  /\ forall attribute_status attribute_type,
       In (attribute_status, attribute_type) attribute_pairs ->
       exists n text,
         d !! (attribute_status +:+ "_" +:+ attribute_type) = Some n
         /\ attr_get (":update_" +:+ attribute_status +:+ "_" +:+ attribute_type)
              (ExpressionAttributeValues item) = Some text
         /\ int_of_str text = Some n.
Proof.
  intros Hitem.
  assert (Hc : exists r, collect_attributes d attribute_pairs [] [] = Ok r).
  { unfold transact_item in Hitem.
    destruct (collect_attributes d attribute_pairs [] []) as [r | e];
      [ eauto | discriminate ]. }
  destruct Hc as [r Hc].
  destruct (collect_attributes_Ok d r Hc)
    as (c1 & c2 & c3 & c4 & c5 & c6 & H1 & H2 & H3 & H4 & H5 & H6).
  destruct (environ METRIC_TABLE_NAME) as [table | ] eqn:Henv.
  - unfold transact_item in Hitem.
    rewrite (collect_attributes_complete d c1 c2 c3 c4 c5 c6), Henv in Hitem
      by assumption.
    inversion Hitem; subst; clear Hitem. simpl.
    split; [ reflexivity | ]. split; [ reflexivity | ].
    intros s t Hin. unfold attribute_pairs in Hin. simpl in Hin.
    destruct Hin as [H | [H | [H | [H | [H | [H | []]]]]]];
      inversion H; subst; clear H; simpl;
      eexists _, _; (split; [ eassumption | ]);
      (split; [ reflexivity | apply int_of_str_of_Z ]).
  - unfold transact_item in Hitem. rewrite Hc, Henv in Hitem.
    destruct r. discriminate.
Qed.

End Transaction_properties.

(** ** One attempt of the commit *)

Section Attempt_properties.

Variable METRIC_TABLE_NAME : string.
Variable environ : string -> option string.
Variable transact_write_items :
  list (list TransactWriteItem * string) ->
  list TransactWriteItem * string -> result unit.

#[local] Abbreviation item_of := (transact_item METRIC_TABLE_NAME environ).
#[local] Abbreviation items_of := (transact_items_of METRIC_TABLE_NAME environ).
#[local] Abbreviation attempt :=
  (update_metric_query_attempt METRIC_TABLE_NAME environ transact_write_items).

(** The four ways an attempt can go. *)
Lemma attempt_cases (st : state) :
  attempt st =
    match records st with
    | [] => (Ok tt, st)
    | _ :: _ =>
        match items_of (map_to_list (workflow_run_metrics st)) with
        | Raise e => (Raise e, st)
        | Ok [] =>
            (Ok tt,
             {| counted_logs := counted_logs st;
                records := records st;
                workflow_run_metrics := workflow_run_metrics st;
                client_request_token := client_request_token st;
                logged := logged st ++ List.map (pair INFO) (counted_logs st);
                submitted := submitted st |})
        | Ok (item :: items) =>
            match transact_write_items (submitted st)
                    (item :: items, client_request_token st) with
            | Ok _ =>
                (Ok tt,
                 {| counted_logs := counted_logs st;
                    records := records st;
                    workflow_run_metrics := workflow_run_metrics st;
                    client_request_token := client_request_token st;
                    logged := logged st ++ List.map (pair INFO) (counted_logs st);
                    submitted :=
                      submitted st ++ [(item :: items, client_request_token st)] |})
            | Raise e =>
                (Raise e,
                 {| counted_logs := counted_logs st;
                    records := records st;
                    workflow_run_metrics := workflow_run_metrics st;
                    client_request_token := client_request_token st;
                    logged := logged st;
                    submitted :=
                      submitted st ++ [(item :: items, client_request_token st)] |})
            end
        end
    end.
Proof.
  unfold update_metric_query_attempt.
  destruct (records st) as [ | r rs ] eqn:Hrec; [ reflexivity | ].
  unfold bind, lift.
  destruct (items_of (map_to_list (workflow_run_metrics st))) as [[ | item items] | e];
    [ | | reflexivity ].
  - unfold ret. rewrite for_each_log_info, Hrec. reflexivity.
  - unfold submit.
    destruct (transact_write_items (submitted st) (item :: items, client_request_token st))
      as [[] | e]; [ | rewrite Hrec; reflexivity ].
    rewrite for_each_log_info. simpl. rewrite Hrec. reflexivity.
Qed.






(** X11: without the table name in the environment, an attempt on a
    non-empty batch with deltas raises [KeyError] for the name of the
    variable before anything is submitted or logged. *)
Theorem attempt_without_table_name (st : state) :
  records st <> [] ->
  workflow_run_metrics st <> ∅ ->
  metrics_complete (workflow_run_metrics st) ->
  environ METRIC_TABLE_NAME = None ->
  attempt st = (Raise (KeyError METRIC_TABLE_NAME), st).
Proof.
  intros Hrec Hne Hm Henv. rewrite attempt_cases.
  destruct (records st) as [ | r rs ]; [ congruence | ].
  destruct (map_to_list (workflow_run_metrics st)) as [ | [w d] l ] eqn:Hl.
  - exfalso. apply Hne. apply map_to_list_empty_iff. exact Hl.
  - assert (Hd : forall k, In k counter_keys -> is_Some (d !! k)).
    { intros k Hk. apply (Hm w d); [ | exact Hk ].
      apply elem_of_map_to_list. rewrite Hl. left. }
    destruct (complete_delta_counters d Hd)
      as (c1 & c2 & c3 & c4 & c5 & c6 & H1 & H2 & H3 & H4 & H5 & H6).
    cbn [transact_items_of]. unfold transact_item.
    rewrite (collect_attributes_complete d c1 c2 c3 c4 c5 c6), Henv by assumption.
    reflexivity.
Qed.

Lemma attempt_frame (st : state) :
  let st' := snd (attempt st) in
  counted_logs st' = counted_logs st
  /\ records st' = records st
  /\ workflow_run_metrics st' = workflow_run_metrics st
  /\ client_request_token st' = client_request_token st
  /\ submitted st' = submitted st ++ payload METRIC_TABLE_NAME environ st.
Proof.
  cbv zeta. rewrite attempt_cases. unfold payload.
  destruct (records st) as [ | r rs ] eqn:Hrec.
  - rewrite app_nil_r. simpl. rewrite Hrec. tauto.
  - destruct (items_of (map_to_list (workflow_run_metrics st)))
      as [[ | item items] | e]; simpl; rewrite ?app_nil_r; try tauto.
    destruct (transact_write_items (submitted st) (item :: items, client_request_token st))
      as [[] | e]; simpl; tauto.
Qed.

Lemma payload_frame (st st' : state) :
  records st' = records st ->
  workflow_run_metrics st' = workflow_run_metrics st ->
  client_request_token st' = client_request_token st ->
  payload METRIC_TABLE_NAME environ st' = payload METRIC_TABLE_NAME environ st.
Proof. intros Hr Hm Ht. unfold payload. rewrite Hr, Hm, Ht. reflexivity. Qed.

(** X12: an attempt changes neither the deltas, nor the queue of
    audit lines, nor the batch, nor the token; so a second attempt on
    the same controller, whatever the first one answered, makes the
    same submission as the first (the same items under the same
    token), or none if the first made none. *)
Theorem second_attempt_repeats_the_submission (st : state) :
  let st1 := snd (attempt st) in
  let st2 := snd (attempt st1) in
  exists submission,
    submitted st1 = submitted st ++ submission
    /\ submitted st2 = submitted st1 ++ submission
    /\ (submission = [] \/ exists items, submission = [(items, client_request_token st)])
    /\ workflow_run_metrics st1 = workflow_run_metrics st
    /\ counted_logs st1 = counted_logs st
    /\ records st1 = records st
    /\ client_request_token st1 = client_request_token st.
Proof.
  cbv zeta.
  destruct (attempt_frame st) as (Hc & Hr & Hm & Ht & Hs). cbv zeta in *.
  destruct (attempt_frame (snd (attempt st))) as (_ & _ & _ & _ & Hs2). cbv zeta in *.
  exists (payload METRIC_TABLE_NAME environ st).
  split; [ exact Hs | ]. split.
  - rewrite Hs2. f_equal. apply payload_frame; assumption.
  - split; [ | tauto ]. unfold payload.
    destruct (records st); [ left; reflexivity | ].
    destruct (items_of _) as [[ | item items] | e]; eauto.
Qed.

Lemma concat_repeat_cons {A} (l : list A) (k : nat) :
  concat (repeat l (S k)) = l ++ concat (repeat l k).
Proof. reflexivity. Qed.

(** The attempts of a retried commit all make the submission of the
    first. *)
Lemma retry_submissions (n : nat) :
  forall st,
    exists k,
      (1 <= k)%nat /\ (k <= Nat.max 1 n)%nat
      /\ submitted (snd (retry n attempt st))
         = submitted st ++ concat (repeat (payload METRIC_TABLE_NAME environ st) k).
Proof.
  induction n as [ | m IH ]; intros st.
  - exists 1%nat. split; [ lia | ]. split; [ simpl; lia | ].
    destruct (attempt_frame st) as (_ & _ & _ & _ & Hs). cbv zeta in Hs.
    simpl. rewrite app_nil_r, <- Hs.
    destruct (attempt st) as [[[] | e] st1]; reflexivity.
  - destruct (attempt_frame st) as (Hc & Hr & Hm & Ht & Hs). cbv zeta in *.
    cbn [retry].
    destruct (attempt st) as [[[] | e] st1] eqn:Hatt; simpl in *.
    + exists 1%nat. split; [ lia | ]. split; [ lia | ].
      simpl. rewrite app_nil_r. exact Hs.
    + destruct m as [ | m' ].
      * exists 1%nat. split; [ lia | ]. split; [ lia | ].
        simpl. rewrite app_nil_r. exact Hs.
      * destruct (IH st1) as (k & Hk1 & Hk2 & Hsub).
        exists (S k). split; [ lia | ]. split; [ lia | ].
        rewrite Hsub, Hs, concat_repeat_cons, <- app_assoc.
        rewrite (payload_frame st st1) by assumption. reflexivity.
Qed.

End Attempt_properties.

(** ** A whole run *)

Lemma concat_repeat_singleton {A} (x : A) (k : nat) :
  concat (repeat [x] k) = repeat x k.
Proof. induction k as [ | k IH ]; simpl; [ reflexivity | rewrite IH; reflexivity ]. Qed.

Lemma concat_repeat_nil {A} (k : nat) : concat (repeat (@nil A) k) = [].
Proof. induction k as [ | k IH ]; simpl; [ reflexivity | exact IH ]. Qed.

Section Run_properties.

Variable parse : json -> result GlacierTransferMetadata.
Variable ARCHIVE_RETRIEVAL : string.
Variable metadata_text : GlacierTransferMetadata -> string.
Variable archive_key : string -> string -> string.
Variable METRIC_TABLE_NAME : string.
Variable environ : string -> option string.
Variable transact_write_items :
  list (list TransactWriteItem * string) ->
  list TransactWriteItem * string -> result unit.

#[local] Abbreviation handle :=
  (handle_record parse ARCHIVE_RETRIEVAL metadata_text archive_key).
#[local] Abbreviation attempt :=
  (update_metric_query_attempt METRIC_TABLE_NAME environ transact_write_items).
#[local] Abbreviation process :=
  (handle_archive_status_changed parse ARCHIVE_RETRIEVAL metadata_text archive_key
     METRIC_TABLE_NAME environ transact_write_items).

Lemma handle_foreign (record : json) (st : state) :
  foreign record = true -> handle record st = (Ok tt, st).
Proof.
  destruct record as [ | | | | | | d ]; try discriminate. simpl.
  unfold handle_record.
  destruct (get_equals d "eventSource" "aws:dynamodb"); [ | reflexivity ].
  destruct (get_equals d "eventName" "INSERT"); [ discriminate | ].
  destruct (get_equals d "eventName" "MODIFY"); [ discriminate | reflexivity ].
Qed.

(** X13: a batch made only of records that are not INSERT or MODIFY
    events of the table's stream (a REMOVE event, an event of another
    source) is passed over: the run returns normally and leaves the
    fresh controller as it was, with nothing logged and nothing
    submitted. *)
Theorem foreign_batch_is_passed_over (rs : list json) :
  forallb foreign rs = true ->
  process (__init__ rs) = (Ok tt, __init__ rs).
Proof.
  intros Hall.
  assert (Hloop : forall l st, forallb foreign l = true ->
                               for_each handle l st = (Ok tt, st)).
  { induction l as [ | r l IH ]; intros st Hl; [ reflexivity | ].
    simpl in Hl. apply andb_prop in Hl as [Hr Hl].
    rewrite for_each_cons, (handle_foreign r st Hr). apply IH. exact Hl. }
  unfold handle_archive_status_changed, bind.
  change (records (__init__ rs)) with rs. rewrite (Hloop rs _ Hall).
  unfold update_metric_query. cbn [retry]. rewrite attempt_cases.
  change (records (__init__ rs)) with rs.
  change (workflow_run_metrics (__init__ rs)) with (∅ : gmap string (gmap string Z)).
  rewrite map_to_list_empty. destruct rs; reflexivity.
Qed.

(** X14: when handling a record of the batch raises, the run raises
    that exception at once, in the state that record left: the
    records after it are not handled, the commit is not attempted and
    nothing is submitted, whatever was counted before. *)
Theorem raising_record_aborts_the_run
    (pre post : list json) (bad : json) (e : exn) (st s1 s2 : state) :
  records st = pre ++ bad :: post ->
  for_each handle pre st = (Ok tt, s1) ->
  handle bad s1 = (Raise e, s2) ->
  process st = (Raise e, s2)
  /\ submitted s2 = submitted st.
Proof.
  intros Hrec Hpre Hbad.
  assert (Hrun : for_each handle (pre ++ bad :: post) st = (Raise e, s2)).
  { rewrite for_each_app, Hpre, for_each_cons, Hbad. reflexivity. }
  split.
  - unfold handle_archive_status_changed, bind. rewrite Hrec, Hrun. reflexivity.
  - destruct (for_each_frame parse ARCHIVE_RETRIEVAL metadata_text archive_key
                (pre ++ bad :: post) st) as (Hs & _ & _).
    rewrite Hrun in Hs. exact Hs.
Qed.

(** X15: taking the retry policy as the design document states it,
    a run on a fresh controller makes at most ten submissions, and
    they are all the same one: the same items under the token
    generated from the batch as it was received. *)
Theorem every_submission_of_a_run_is_the_same (rs : list json) :
  exists k items,
    (k <= 10)%nat
    /\ submitted (snd (process (__init__ rs)))
       = repeat (items, _generate_client_request_token rs) k.
Proof.
  destruct (for_each_frame parse ARCHIVE_RETRIEVAL metadata_text archive_key
              rs (__init__ rs)) as (Hs & Hr & Ht).
  unfold handle_archive_status_changed, bind.
  change (records (__init__ rs)) with rs.
  destruct (for_each handle rs (__init__ rs)) as [[[] | e] s1]; simpl in Hs, Hr, Ht.
  - destruct (retry_submissions METRIC_TABLE_NAME environ transact_write_items 10 s1)
      as (k & _ & Hk & Hsub).
    unfold update_metric_query. rewrite Hsub, Hs. simpl app.
    unfold payload. rewrite Ht.
    destruct (records s1).
    + exists 0%nat, []. split; [ lia | ]. apply concat_repeat_nil.
    + destruct (transact_items_of METRIC_TABLE_NAME environ
                  (map_to_list (workflow_run_metrics s1))) as [[ | item items] | e'].
      * exists 0%nat, []. split; [ lia | ]. apply concat_repeat_nil.
      * exists k, (item :: items). split; [ simpl in Hk; lia | ].
        apply concat_repeat_singleton.
      * exists 0%nat, []. split; [ lia | ]. apply concat_repeat_nil.
  - exists 0%nat, []. split; [ lia | ]. simpl. exact Hs.
Qed.

End Run_properties.

(** ** The token and the status segment *)

Lemma hex_digit_is_hex (x : Z) : 0 <= x < 16 -> is_hex_digit (Sha256.hex_digit x) = true.
Proof.
  intros Hx. unfold is_hex_digit, Sha256.hex_digit.
  destruct (x <? 10) eqn:Hlt.
  - apply Z.ltb_lt in Hlt. rewrite N_ascii_embedding by lia.
    rewrite Z2N.id by lia.
    apply orb_true_iff. left. apply andb_true_iff. split; apply Z.leb_le; lia.
  - apply Z.ltb_ge in Hlt. rewrite N_ascii_embedding by lia.
    rewrite Z2N.id by lia.
    apply orb_true_iff. right. apply andb_true_iff. split; apply Z.leb_le; lia.
Qed.

Lemma hex_all_hex (n : nat) (x : Z) : forallb is_hex_digit (Sha256.hex n x) = true.
Proof.
  unfold Sha256.hex. apply forallb_forall. intros c Hc.
  apply in_map_iff in Hc as (i & <- & _).
  apply hex_digit_is_hex. apply Z.mod_pos_bound. lia.
Qed.

Lemma hexdigest_all_hex (msg : list Z) : forallb is_hex_digit (Sha256.hexdigest msg) = true.
Proof.
  unfold Sha256.hexdigest. destruct (Sha256.digest msg).
  rewrite !forallb_app, !hex_all_hex. reflexivity.
Qed.

Lemma slice_step2_all (P : ascii -> bool) (s : string) :
  forallb P (list_ascii_of_string s) = true ->
  forallb P (list_ascii_of_string (slice_step2 s)) = true.
Proof.
  assert (H : forall s,
             (forallb P (list_ascii_of_string s) = true ->
              forallb P (list_ascii_of_string (slice_step2 s)) = true)
             /\ (forall c, forallb P (list_ascii_of_string (String c s)) = true ->
                           forallb P (list_ascii_of_string (slice_step2 (String c s))) = true)).
  { induction s0 as [ | c s0 [IH1 IH2] ].
    - split; [ tauto | intros c H; exact H ].
    - split; [ apply IH2 | ].
      intros c' H. simpl in H |- *.
      apply andb_prop in H as [Hc' H]. apply andb_prop in H as [_ H].
      rewrite Hc'. simpl. apply IH1. exact H. }
  apply H.
Qed.

Lemma str_drop_all (P : ascii -> bool) (n : nat) (s : string) :
  forallb P (list_ascii_of_string s) = true ->
  forallb P (list_ascii_of_string (str_drop n s)) = true.
Proof.
  revert s. induction n as [ | n IH ]; intros s H; [ exact H | ].
  destruct s as [ | c s ]; [ reflexivity | ].
  simpl in H |- *. apply andb_prop in H as [_ H]. apply IH. exact H.
Qed.

Lemma list_ascii_of_app (a b : string) :
  list_ascii_of_string (a +:+ b) = list_ascii_of_string a ++ list_ascii_of_string b.
Proof. induction a as [ | c a IH ]; simpl; [ reflexivity | rewrite IH; reflexivity ]. Qed.

(** X16: every character of the token of any batch is a lowercase
    hexadecimal digit. *)
Theorem client_request_token_is_hexadecimal (records : list json) :
  forallb is_hex_digit (list_ascii_of_string (_generate_client_request_token records))
  = true.
Proof.
  unfold _generate_client_request_token. cbv zeta.
  assert (Hd : forallb is_hex_digit
                 (list_ascii_of_string (sha256_hexdigest (dumps (JList records)))) = true).
  { unfold sha256_hexdigest. rewrite list_ascii_of_string_of_list_ascii.
    apply hexdigest_all_hex. }
  rewrite list_ascii_of_app, forallb_app.
  rewrite slice_step2_all by exact Hd.
  unfold slice_last. rewrite str_drop_all by exact Hd. reflexivity.
Qed.

Lemma split_shape (sep : ascii) (s : string) :
  exists prefix segment,
    s = prefix +:+ segment
    /\ ~ In sep (list_ascii_of_string segment)
    /\ ((prefix = "" /\ split sep s = [segment])
        \/ (exists before rest,
              prefix = before +:+ String sep ""
              /\ split sep s = rest ++ [segment] /\ rest <> [])).
Proof.
  induction s as [ | c s IH ].
  - exists "", "". simpl. split; [ reflexivity | ]. split; [ tauto | ].
    left. split; reflexivity.
  - destruct IH as (p & g & Hs & Hno & Hshape). simpl.
    destruct (Ascii.eqb_spec c sep) as [-> | Hne].
    + exists (String sep p), g. split; [ rewrite Hs at 1; reflexivity | ].
      split; [ exact Hno | ]. right.
      destruct Hshape as [[-> Hsplit] | (b & rest & -> & Hsplit & Hrest)].
      * exists "", [""]. rewrite Hsplit. repeat split; discriminate.
      * exists (String sep b), ("" :: rest). rewrite Hsplit.
        repeat split; discriminate.
    + destruct Hshape as [[-> Hsplit] | (b & rest & -> & Hsplit & Hrest)].
      * exists "", (String c g). simpl in Hs. subst s. rewrite Hsplit.
        split; [ reflexivity | ]. split.
        -- simpl. intros [H | H]; [ congruence | contradiction ].
        -- left. split; reflexivity.
      * exists (String c (b +:+ String sep "")), g.
        split; [ rewrite Hs at 1; reflexivity | ].
        split; [ exact Hno | ]. right.
        destruct rest as [ | h t ]; [ congruence | ].
        exists (String c b), (String c h :: t). rewrite Hsplit.
        repeat split; discriminate.
Qed.

Lemma last_app_singleton {A} (l : list A) (x d : A) : List.last (l ++ [x]) d = x.
Proof.
  induction l as [ | y l IH ]; [ reflexivity | ].
  simpl. destruct (l ++ [x]) eqn:Hl; [ destruct l; discriminate | exact IH ].
Qed.

(** X17: the status taken from a status field is the part after its
    last ["/"]: it contains no ["/"], the field is that status behind
    a prefix that is empty or ends with ["/"], and a field without
    ["/"] is its own status. *)
Theorem last_segment_is_the_part_after_the_last_slash (s : string) :
  ~ In "/"%char (list_ascii_of_string (last_segment s))
  /\ (exists prefix,
        s = prefix +:+ last_segment s
        /\ (prefix = "" \/ exists before, prefix = before +:+ "/"))
  /\ (~ In "/"%char (list_ascii_of_string s) -> last_segment s = s).
Proof.
  destruct (split_shape "/" s) as (p & g & Hs & Hno & Hshape).
  assert (Hlast : last_segment s = g).
  { unfold last_segment.
    destruct Hshape as [[_ ->] | (b & rest & _ & -> & _)];
      [ reflexivity | apply last_app_singleton ]. }
  rewrite Hlast. split; [ exact Hno | ]. split.
  - exists p. split; [ exact Hs | ].
    destruct Hshape as [[-> _] | (b & rest & -> & _ & _)]; eauto.
  - intros Hnone.
    destruct Hshape as [[-> _] | (b & rest & -> & _ & _)]; [ rewrite Hs; reflexivity | ].
    exfalso. apply Hnone. rewrite Hs, !list_ascii_of_app.
    apply in_or_app. left. apply in_or_app. right. left. reflexivity.
Qed.

(** ** The further properties on sample data *)

Lemma one_delta_complete : metrics_complete (workflow_run_metrics Samples.one_delta).
Proof.
  intros w d Hd k Hk. simpl in Hd.
  apply lookup_singleton_Some in Hd as [_ <-].
  rewrite !lookup_insert. repeat case_decide; eauto.
  apply initial_metric_complete. exact Hk.
Qed.

Lemma one_delta_not_empty : workflow_run_metrics Samples.one_delta <> ∅.
Proof. simpl. apply insert_non_empty. Qed.

Lemma missing_image_raises_key_error_witness :
  Samples.handle (JDict Samples.insert_without_images) Double.blank
  = (Raise (KeyError "dynamodb"), Double.blank).
Proof.
  apply (proj1 (missing_image_raises_key_error
                  Double.parse Double.ARCHIVE_RETRIEVAL Double.metadata_text
                  Double.archive_key Samples.insert_without_images Double.blank
                  eq_refl (or_introl eq_refl))).
  reflexivity.
Defined.

Lemma falsy_old_image_is_no_old_image_witness :
  Samples.handle (Double.modify_event (JDict []) Double.requested_A) Double.blank
  = Samples.handle (Double.insert_event Double.requested_A) Double.blank.
Proof.
  apply (falsy_old_image_is_no_old_image
           Double.parse Double.ARCHIVE_RETRIEVAL Double.metadata_text Double.archive_key
           (Double.modify_event (JDict []) Double.requested_A)
           (Double.insert_event Double.requested_A)
           Double.requested_A (JDict [])).
  - reflexivity.
  - reflexivity.
  - reflexivity.
Defined.

Lemma loop_from_fresh_controller (rs : list json) :
  fst (for_each Samples.handle rs Double.blank) = Ok tt ->
  for_each Samples.handle rs (__init__ rs)
  = (Ok tt, snd (for_each Samples.handle rs (__init__ rs))).
Proof.
  intros H.
  destruct (for_each_same_counters Double.parse Double.ARCHIVE_RETRIEVAL
              Double.metadata_text Double.archive_key rs (__init__ rs) Double.blank
              eq_refl) as [Hfst _].
  unfold Samples.handle in *. rewrite H in Hfst.
  destruct (for_each _ rs (__init__ rs)) as [r s]. simpl in *. destruct r as [[] | e].
  - reflexivity.
  - discriminate.
Qed.

Lemma deltas_count_the_counted_events_witness :
  let batch := [ Double.insert_event Double.requested_A;
                 Double.insert_event Double.zero_size_D;
                 Double.insert_event Double.requested_A ] in
  let st := snd (for_each Samples.handle batch (__init__ batch)) in
  counter (workflow_run_metrics st) "wf1" "requested_count" = Some 2
  /\ counter (workflow_run_metrics st) "wf1" "requested_size" = Some 2000.
Proof.
  intros batch st.
  assert (Hrun : for_each Samples.handle batch (__init__ batch) = (Ok tt, st)).
  { apply loop_from_fresh_controller. vm_compute. reflexivity. }
  pose proof (deltas_count_the_counted_events
                Double.parse Double.ARCHIVE_RETRIEVAL Double.metadata_text
                Double.archive_key batch st Hrun "wf1" "requested"
                (or_introl eq_refl)) as H.
  vm_compute in H. exact H.
Defined.

Lemma one_audit_line_per_counted_event_witness :
  let batch := [ Double.insert_event Double.requested_A;
                 Double.insert_event Double.zero_size_D ] in
  counted_logs (snd (for_each Samples.handle batch Double.blank))
  = ["Archive:wf1|A - counted_status:requested"].
Proof.
  intros batch.
  assert (Hrun : for_each Samples.handle batch Double.blank
                 = (Ok tt, snd (for_each Samples.handle batch Double.blank))).
  { vm_compute. reflexivity. }
  apply (proj1 (one_audit_line_per_counted_event
                  Double.parse Double.ARCHIVE_RETRIEVAL Double.metadata_text
                  Double.archive_key batch Double.blank _ Hrun)).
Defined.

Lemma deltas_of_a_split_batch_add_up_witness :
  let first := [Double.insert_event Double.requested_A] in
  let second := [ Double.insert_event Double.requested_A;
                  Double.modify_event Double.requested_B Double.staged_B ] in
  exists st,
    for_each Samples.handle (first ++ second) (__init__ (first ++ second)) = (Ok tt, st)
    /\ counter_or_zero (workflow_run_metrics st) "wf1" "requested_size"
       = counter_or_zero
           (workflow_run_metrics (snd (for_each Samples.handle first (__init__ first))))
           "wf1" "requested_size"
         + counter_or_zero
             (workflow_run_metrics (snd (for_each Samples.handle second (__init__ second))))
             "wf1" "requested_size".
Proof.
  intros first second.
  destruct (deltas_of_a_split_batch_add_up
              Double.parse Double.ARCHIVE_RETRIEVAL Double.metadata_text
              Double.archive_key first second
              (snd (for_each Samples.handle first (__init__ first)))
              (snd (for_each Samples.handle second (__init__ second))))
    as (st & Hrun & Hsum).
  - apply loop_from_fresh_controller. vm_compute. reflexivity.
  - apply loop_from_fresh_controller. vm_compute. reflexivity.
  - exists st. split; [ exact Hrun | ].
    apply (Hsum "wf1" "requested"). left. reflexivity.
Defined.

Lemma transact_item_of_complete_delta_witness :
  transact_item Double.METRIC_TABLE_NAME Double.environ "wf1" _initial_metric
  = Ok Samples.item_of_initial_metric.
Proof.
  apply (transact_item_of_complete_delta
           Double.METRIC_TABLE_NAME Double.environ "wf1" "metric-table" _initial_metric
           0 0 0 0 0 0).
  - reflexivity.
  - reflexivity.
  - reflexivity.
  - reflexivity.
  - reflexivity.
  - reflexivity.
  - reflexivity.
Defined.

Lemma transact_item_values_read_back_witness :
  Key_pk Samples.item_of_initial_metric = "wf1"
  /\ Double.environ Double.METRIC_TABLE_NAME
     = Some (TableName Samples.item_of_initial_metric).
Proof.
  destruct (transact_item_values_read_back
              Double.METRIC_TABLE_NAME Double.environ "wf1" _initial_metric
              Samples.item_of_initial_metric) as (Hk & Ht & _).
  - vm_compute. reflexivity.
  - split; assumption.
Defined.



Lemma attempt_without_table_name_witness :
  update_metric_query_attempt Double.METRIC_TABLE_NAME Samples.no_environ
    Double.transact_write_items Samples.one_delta
  = (Raise (KeyError Double.METRIC_TABLE_NAME), Samples.one_delta).
Proof.
  apply attempt_without_table_name.
  - discriminate.
  - apply one_delta_not_empty.
  - apply one_delta_complete.
  - reflexivity.
Defined.

Lemma foreign_batch_is_passed_over_witness :
  Double.run [Samples.remove_event; Samples.other_source_event]
  = (Ok tt, __init__ [Samples.remove_event; Samples.other_source_event]).
Proof.
  apply (foreign_batch_is_passed_over
           Double.parse Double.ARCHIVE_RETRIEVAL Double.metadata_text Double.archive_key
           Double.METRIC_TABLE_NAME Double.environ Double.transact_write_items
           [Samples.remove_event; Samples.other_source_event]).
  reflexivity.
Defined.

Lemma raising_record_aborts_the_run_witness :
  let counted :=
    snd (for_each Samples.handle [Double.insert_event Double.requested_A]
           Samples.before_bad_record) in
  handle_archive_status_changed Double.parse Double.ARCHIVE_RETRIEVAL
    Double.metadata_text Double.archive_key Double.METRIC_TABLE_NAME Double.environ
    Double.transact_write_items Samples.before_bad_record
  = (Raise AttributeError, counted)
  /\ submitted counted = [].
Proof.
  intros counted.
  apply (raising_record_aborts_the_run
           Double.parse Double.ARCHIVE_RETRIEVAL Double.metadata_text Double.archive_key
           Double.METRIC_TABLE_NAME Double.environ Double.transact_write_items
           [Double.insert_event Double.requested_A] [] JNull AttributeError
           Samples.before_bad_record counted counted).
  - reflexivity.
  - vm_compute. reflexivity.
  - reflexivity.
Defined.
